(** * A shallow embedding of scripts/configure_server.py

    The script prepares a game server's working directory from an S3 object
    store: it downloads compressed maps and a manifest-driven set of
    configuration files.  Strings are Stdlib [string]s (ASCII text), file
    and object payloads are lists of bytes, local paths are lists of path
    components, and the object-store client is an environment record whose
    fields answer each remote request.  Stateful code runs in a small
    state-and-exception monad over a world holding the local filesystem,
    a log of remote calls and filesystem actions, and standard output. *)

From Stdlib Require Import String Ascii List Bool Arith Lia.
Import ListNotations.

Open Scope string_scope.
Open Scope list_scope.

(** ** Character and string helpers (Python [str] methods) *)

Definition ceqb (a b : ascii) : bool := Ascii.eqb a b.

Definition char_in (c : ascii) (chars : string) : bool :=
  existsb (ceqb c) (list_ascii_of_string chars).

Fixpoint str_forallb (p : ascii -> bool) (s : string) : bool :=
  match s with
  | EmptyString => true
  | String c r => p c && str_forallb p r
  end.

(** [c in s] *)
Fixpoint str_has (c : ascii) (s : string) : bool :=
  match s with
  | EmptyString => false
  | String x r => ceqb x c || str_has c r
  end.

(** [s.split(c, 1)] when [c in s]: the text before and after the first
    occurrence of [c]; [None] when [c] does not occur. *)
Fixpoint split_once (c : ascii) (s : string) : option (string * string) :=
  match s with
  | EmptyString => None
  | String x r =>
      if ceqb x c then Some (EmptyString, r)
      else match split_once c r with
           | Some (a, b) => Some (String x a, b)
           | None => None
           end
  end.

(** [s.split(c)]: all pieces, [""] giving [[""]]. *)
Fixpoint split_on (c : ascii) (s : string) : list string :=
  match s with
  | EmptyString => [EmptyString]
  | String x r =>
      let rest := split_on c r in
      if ceqb x c then EmptyString :: rest
      else match rest with
           | h :: t => String x h :: t
           | [] => [String x EmptyString]
           end
  end.

(** [sep.join(l)] *)
Fixpoint join (sep : string) (l : list string) : string :=
  match l with
  | [] => EmptyString
  | [x] => x
  | x :: t => (x ++ sep ++ join sep t)%string
  end.

(** [s.startswith(pre)] *)
Fixpoint starts_with (pre s : string) : bool :=
  match pre, s with
  | EmptyString, _ => true
  | String c r, String d t => ceqb c d && starts_with r t
  | String _ _, EmptyString => false
  end.

(** [s.endswith(suf)] *)
Definition ends_with (suf s : string) : bool :=
  let n := String.length s in
  let m := String.length suf in
  Nat.leb m n && String.eqb (substring (n - m) m s) suf.

(** [s.rpartition(c)[2]]: the text after the last [c], or all of [s]. *)
Fixpoint after_last_acc (c : ascii) (acc s : string) : string :=
  match s with
  | EmptyString => acc
  | String x r =>
      if ceqb x c then after_last_acc c EmptyString r
      else after_last_acc c (acc ++ String x EmptyString)%string r
  end.

Definition after_last (c : ascii) (s : string) : string := after_last_acc c EmptyString s.

(** [os.path.basename(p)] is [p[p.rfind('/') + 1:]]. *)
Definition basename (p : string) : string := after_last "/" p.

(** ** [urllib.parse.urlsplit] (CPython 3.12), over ASCII text

    [urlparse] additionally splits [;params] off the path for the schemes
    of [uses_params], which do not include ["s3"]; [from_url] reads the
    path only when the scheme is ["s3"], so the split is left out. *)

(** [_WHATWG_C0_CONTROL_OR_SPACE]: the characters U+0000 to U+0020. *)
Definition is_c0_or_space (c : ascii) : bool := Nat.leb (nat_of_ascii c) 32.

(** [url.lstrip(_WHATWG_C0_CONTROL_OR_SPACE)] *)
Fixpoint lstrip_c0 (s : string) : string :=
  match s with
  | EmptyString => EmptyString
  | String c r => if is_c0_or_space c then lstrip_c0 r else s
  end.

(** [_UNSAFE_URL_BYTES_TO_REMOVE = ['\t', '\r', '\n']] *)
Definition is_unsafe (c : ascii) : bool :=
  ceqb c "009"%char || ceqb c "013"%char || ceqb c "010"%char.

(** [for b in _UNSAFE_URL_BYTES_TO_REMOVE: url = url.replace(b, "")] *)
Fixpoint remove_unsafe (s : string) : string :=
  match s with
  | EmptyString => EmptyString
  | String c r => if is_unsafe c then remove_unsafe r else String c (remove_unsafe r)
  end.

Definition is_ascii_alpha (c : ascii) : bool :=
  let n := nat_of_ascii c in (Nat.leb 65 n && Nat.leb n 90) || (Nat.leb 97 n && Nat.leb n 122).

Definition is_ascii_digit (c : ascii) : bool :=
  let n := nat_of_ascii c in Nat.leb 48 n && Nat.leb n 57.

(** [scheme_chars = ascii_letters + digits + "+-."] *)
Definition scheme_char (c : ascii) : bool :=
  is_ascii_alpha c || is_ascii_digit c || char_in c "+-.".

(** [str.lower] on ASCII *)
Definition lower_char (c : ascii) : ascii :=
  let n := nat_of_ascii c in
  if Nat.leb 65 n && Nat.leb n 90 then ascii_of_nat (n + 32) else c.

Fixpoint lower (s : string) : string :=
  match s with
  | EmptyString => EmptyString
  | String c r => String (lower_char c) (lower r)
  end.

(** The scheme step of [urlsplit]:
    [i = url.find(':')]; if [i > 0] and [url[0]] is an ASCII letter and
    every character of [url[:i]] is in [scheme_chars], the scheme is
    [url[:i].lower()] and the rest is [url[i+1:]]. *)
Definition split_scheme (url : string) : string * string :=
  match split_once ":" url with
  | Some (EmptyString, _) => (EmptyString, url)
  | Some ((String c0 _) as pre, post) =>
      if is_ascii_alpha c0 && str_forallb scheme_char pre
      then (lower pre, post) else (EmptyString, url)
  | None => (EmptyString, url)
  end.

(** [_splitnetloc(url, 0)]: up to the first of ['/'], ['?'], ['#']. *)
Definition netloc_delim (c : ascii) : bool := char_in c "/?#".

Fixpoint split_first (p : ascii -> bool) (s : string) : string * string :=
  match s with
  | EmptyString => (EmptyString, EmptyString)
  | String c r =>
      if p c then (EmptyString, s)
      else let (a, b) := split_first p r in (String c a, b)
  end.

Record SplitResult := {
  scheme : string;
  netloc : string;
  upath : string;
  query : string;
  fragment : string
}.

(** Python exceptions raised along the script's paths. *)
Inductive exn :=
| ValueError (msg : string)
| TypeError (msg : string)
| ClientError (code : string)           (** botocore [ClientError] *)
| BotoCoreError (what : string)         (** transport/credential errors *)
| KeyError (k : string)
| AttributeError (name : string)
| FileNotFoundError (p : list string)
| NotADirectoryError (p : list string)
| IsADirectoryError (p : list string)
| FileExistsError (p : list string)
| UnsupportedOperation (what : string)  (** [io.UnsupportedOperation] *)
| DecompressError                       (** [OSError] from [bz2] *)
| JSONDecodeError.

Inductive res (A : Type) :=
| Ok (a : A)
| Err (e : exn).
Arguments Ok {A} a.
Arguments Err {A} e.

(** *** [ipaddress.ip_address] on a string, as far as [urlsplit] needs it

    Every failure of [IPv4Address] and [IPv6Address] is an
    [AddressValueError], so only acceptance matters here. *)

(** [_HEX_DIGITS = frozenset('0123456789abcdefABCDEF')] *)
Definition is_hex_digit (c : ascii) : bool :=
  is_ascii_digit c || char_in c "abcdefABCDEF".

(** [int(s, 10)] on ASCII digits *)
Fixpoint dec_value_acc (acc : nat) (s : string) : nat :=
  match s with
  | EmptyString => acc
  | String c r => dec_value_acc (acc * 10 + (nat_of_ascii c - 48)) r
  end.

(** [IPv4Address._parse_octet]: non-empty, ASCII digits, at most three of
    them, no leading zero, at most 255. *)
Definition octet_ok (o : string) : bool :=
  if String.eqb o EmptyString then false
  else if negb (str_forallb is_ascii_digit o) then false
  else if Nat.ltb 3 (String.length o) then false
  else if negb (String.eqb o "0") && starts_with "0" o then false
  else Nat.leb (dec_value_acc 0 o) 255.

(** [IPv4Address(s)]: no ['/'], not empty, four octets split on ['.']. *)
Definition ipv4_ok (s : string) : bool :=
  negb (str_has "/" s)
  && negb (String.eqb s EmptyString)
  && (let octets := split_on "." s in
      Nat.eqb (List.length octets) 4 && forallb octet_ok octets).

(** [IPv6Address._parse_hextet]: non-empty, hex digits, at most four. *)
Definition hextet_ok (h : string) : bool :=
  negb (String.eqb h EmptyString)
  && str_forallb is_hex_digit h
  && Nat.leb (String.length h) 4.

Definition is_empty (s : string) : bool := String.eqb s EmptyString.

(** The part of [IPv6Address._ip_int_from_string] after the IPv4 suffix
    has been replaced: at most nine parts, at most one ['::'] between the
    end points, and the parts before and after it parsed as hextets. *)
Definition ipv6_parts_ok (parts : list string) : bool :=
  let n := List.length parts in
  if Nat.ltb 9 n then false else
  let first_empty := is_empty (nth 0 parts EmptyString) in
  let last_empty := is_empty (nth (n - 1) parts EmptyString) in
  match filter (fun i => is_empty (nth i parts EmptyString)) (seq 1 (n - 2)) with
  | [] =>
      Nat.eqb n 8 && negb first_empty && negb last_empty && forallb hextet_ok parts
  | [i] =>
      let hi := if first_empty then i - 1 else i in
      let lo := if last_empty then n - i - 2 else n - i - 1 in
      (negb first_empty || Nat.eqb hi 0)
      && (negb last_empty || Nat.eqb lo 0)
      && Nat.ltb (hi + lo) 8
      && forallb hextet_ok (firstn hi parts)
      && forallb hextet_ok (skipn (n - lo) parts)
  | _ :: _ :: _ => false
  end.

(** [IPv6Address._ip_int_from_string]: an IPv4 suffix in the last part is
    checked with [IPv4Address] and stands for two hextets, which are
    written here as ["0"] (any two valid hextets give the same verdict). *)
Definition ipv6_addr_ok (s : string) : bool :=
  negb (String.eqb s EmptyString)
  && (let parts := split_on ":" s in
      Nat.leb 3 (List.length parts)
      && (let lastp := last parts EmptyString in
          if str_has "." lastp
          then ipv4_ok lastp && ipv6_parts_ok (removelast parts ++ ["0"; "0"])
          else ipv6_parts_ok parts)).

(** [IPv6Address(s)]: no ['/'], then [_split_scope_id]. *)
Definition ipv6_ok (s : string) : bool :=
  negb (str_has "/" s)
  && match split_once "%" s with
     | None => ipv6_addr_ok s
     | Some (addr, scope) =>
         negb (String.eqb scope EmptyString) && negb (str_has "%" scope)
         && ipv6_addr_ok addr
     end.

(** [re.match(r"\Av[a-fA-F0-9]+\..+\Z", hostname)] *)
Definition ipvfuture_ok (h : string) : bool :=
  match h with
  | String "v" r =>
      let (hex, rest) := split_first (fun c => negb (is_hex_digit c)) r in
      negb (String.eqb hex EmptyString)
      && match rest with
         | String "." t => negb (String.eqb t EmptyString) && negb (str_has "010"%char t)
         | _ => false
         end
  | _ => false
  end.

(** [_check_bracketed_host].  The message of the last error is
    [f'{address!r} does not appear to be an IPv4 or IPv6 address'], whose
    [repr] is written here with single quotes. *)
Definition check_bracketed_host (hostname : string) : res unit :=
  if starts_with "v" hostname then
    if ipvfuture_ok hostname then Ok tt
    else Err (ValueError "IPvFuture address is invalid")
  else if ipv4_ok hostname then Err (ValueError "An IPv4 address cannot be in brackets")
  else if ipv6_ok hostname then Ok tt
  else Err (ValueError ("'" ++ hostname ++ "' does not appear to be an IPv4 or IPv6 address")).

(** [_check_bracketed_netloc] *)
Definition check_bracketed_netloc (netloc : string) : res unit :=
  let hostport := after_last "@" netloc in
  match split_once "[" hostport with
  | Some (before, bracketed) =>
      if negb (String.eqb before EmptyString) then Err (ValueError "Invalid IPv6 URL")
      else
        let (hostname, port) := match split_once "]" bracketed with
                                | Some (a, b) => (a, b)
                                | None => (bracketed, EmptyString)
                                end in
        if negb (String.eqb port EmptyString) && negb (starts_with ":" port)
        then Err (ValueError "Invalid IPv6 URL")
        else check_bracketed_host hostname
  | None =>
      let hostname := match split_once ":" hostport with
                      | Some (a, _) => a
                      | None => hostport
                      end in
      check_bracketed_host hostname
  end.

(** The bracket checks of [urlsplit] on the network location. *)
Definition netloc_ok (netloc : string) : res unit :=
  let l := str_has "[" netloc in
  let r := str_has "]" netloc in
  if (l && negb r) || (r && negb l) then Err (ValueError "Invalid IPv6 URL")
  else if l && r then check_bracketed_netloc netloc
  else Ok tt.

Definition urlsplit (url0 : string) : res SplitResult :=
  let url1 := remove_unsafe (lstrip_c0 url0) in
  let (sch, url2) := split_scheme url1 in
  let (nl, url3) :=
    if starts_with "//" url2
    then split_first netloc_delim (substring 2 (String.length url2 - 2) url2)
    else (EmptyString, url2) in
  match netloc_ok nl with
  | Err x => Err x
  | Ok _ =>
    let (url4, frag) := match split_once "#" url3 with
                        | Some (a, b) => (a, b)
                        | None => (url3, EmptyString)
                        end in
    let (pth, q) := match split_once "?" url4 with
                    | Some (a, b) => (a, b)
                    | None => (url4, EmptyString)
                    end in
    Ok {| scheme := sch; netloc := nl; upath := pth; query := q; fragment := frag |}
  end.

(** ** [S3Path] *)

Record S3Path := { bucket : string; key : string }.

Definition base_name (p : S3Path) : string := basename (key p).

(** [result.netloc is not None]: [urlparse] gives a [str] netloc, never
    [None], so the test always holds. *)
Definition netloc_is_not_None (_ : string) : bool := true.

(** [S3Path.from_url] *)
Definition from_url (url : string) : res (option S3Path) :=
  match urlsplit url with
  | Err e => Err e
  | Ok r =>
      if String.eqb (scheme r) "s3" && netloc_is_not_None (netloc r)
      then Ok (Some {| bucket := netloc r; key := upath r |})
      else Ok None
  end.

(** [S3Path.from_object] *)
Definition from_object (b : string) (k : string) : S3Path :=
  {| bucket := b; key := k |}.

(** [S3Path.navigate] with its positional arguments *)
Definition navigate (p : S3Path) (args : list string) : S3Path :=
  let elements := split_on "/" (key p) in
  let new_path := join "/" (elements ++ args) in
  {| bucket := bucket p; key := ("/" ++ new_path)%string |}.

(** [S3Path.url] *)
Definition url (p : S3Path) : string := ("s3://" ++ bucket p ++ key p)%string.

(** ** Local paths ([pathlib.Path]) and the filesystem *)

(** An absolute path, as its components below the root. *)
Definition path := list string.

Fixpoint path_eqb (p q : path) : bool :=
  match p, q with
  | [], [] => true
  | x :: p', y :: q' => String.eqb x y && path_eqb p' q'
  | _, _ => false
  end.

(** [p] is [q] or one of its ancestors. *)
Fixpoint path_prefix (p q : path) : bool :=
  match p, q with
  | [], _ => true
  | x :: p', y :: q' => String.eqb x y && path_prefix p' q'
  | _ :: _, [] => false
  end.

(** The components [PurePosixPath] keeps: non-empty and other than ["."]. *)
Definition path_parts (s : string) : list string :=
  filter (fun x => negb (String.eqb x "" || String.eqb x ".")) (split_on "/" s).

(** [p / s]; an absolute [s] replaces [p]. *)
Definition pdiv (p : path) (s : string) : path :=
  if starts_with "/" s then path_parts s else p ++ path_parts s.

Definition bytes := list Byte.byte.

Inductive node :=
| File (b : bytes)
| Dir.

Definition fs_t := list (path * node).

Fixpoint fs_lookup (m : fs_t) (p : path) : option node :=
  match m with
  | [] => None
  | (q, n) :: t => if path_eqb q p then Some n else fs_lookup t p
  end.

Definition fs_set (m : fs_t) (p : path) (n : node) : fs_t :=
  (p, n) :: filter (fun e => negb (path_eqb (fst e) p)) m.

(** [shutil.rmtree(d)]: [d] and everything below it. *)
Definition fs_rmtree (m : fs_t) (d : path) : fs_t :=
  filter (fun e => negb (path_prefix d (fst e))) m.

Definition dir_exists (m : fs_t) (d : path) : bool :=
  match d with
  | [] => true
  | _ => match fs_lookup m d with Some Dir => true | _ => false end
  end.

(** Remote calls and filesystem actions, in the order they happen. *)
Inductive event :=
| EvListPage (b prefix : string)      (** one [list_objects_v2] page *)
| EvHead (b k : string)               (** [head_object] *)
| EvGetObject (b k : string)          (** [get_object] *)
| EvDownload (b k : string)           (** [download_fileobj] *)
| EvOpenWrite (p : path)              (** [open(p, "wb")]: create or truncate *)
| EvWrite (p : path) (data : bytes)   (** the file's content written *)
| EvRead (p : path)                   (** [open(p, "rb")] *)
| EvMkdtemp (p : path)
| EvRmtree (p : path).

Record world := {
  fs : fs_t;
  log : list event;
  stdout : list string;
  tmp_counter : nat
}.

(** A manifest as [json.load] returns it: file name to directory, in
    insertion order. *)
Definition manifest := list (string * string).

(** One page of [list_objects_v2]: [None] when the page has no
    ["Contents"] entry. *)
Definition page := option (list string).

(** The object-store client and the rest of the process environment. *)
Record env := {
  (** whether the client object has an attribute [paginator]; boto3's
      S3 client has [get_paginator] and no [paginator] *)
  has_paginator : bool;
  (** the pages of [list_objects_v2(Bucket, Prefix)], each fetched or failing *)
  list_pages : string -> string -> list (res page);
  (** [head_object]: [None] on success, else the exception raised *)
  head : string -> string -> option exn;
  (** the body of an object, or the exception raised fetching it *)
  fetch : string -> string -> res bytes;
  (** what [download_fileobj] has written to the file when fetching the
      object fails *)
  partial_download : string -> string -> bytes;
  (** [json.load] of a byte stream *)
  json_parse : bytes -> option manifest;
  (** [bz2] decompression of a byte stream: the output produced before
      the stream ends or breaks, and the exception raised where it breaks *)
  bz2_decompress : bytes -> bytes * option exn;
  cwd : path;
  home : path;
  (** [tempfile.gettempdir()], the random names [mkdtemp] draws, and
      [tempfile.TMP_MAX] *)
  tmp_root : path;
  tmp_name : nat -> string;
  tmp_max : nat
}.

(** ** The state-and-exception monad *)

Definition M (A : Type) := env -> world -> res A * world.

Definition ret {A} (a : A) : M A := fun _ w => (Ok a, w).

Definition bind {A B} (m : M A) (f : A -> M B) : M B :=
  fun e w =>
    let (r, w') := m e w in
    match r with
    | Ok a => f a e w'
    | Err x => (Err x, w')
    end.

Notation "x <- m1 ;; m2" := (bind m1 (fun x => m2))
  (at level 61, m1 at next level, right associativity).
Notation "m1 ;; m2" := (bind m1 (fun _ => m2))
  (at level 61, right associativity).

Definition raise {A} (x : exn) : M A := fun _ w => (Err x, w).
Definition lift {A} (r : res A) : M A := fun _ w => (r, w).
Definition asks {A} (f : env -> A) : M A := fun e w => (Ok (f e), w).
Definition gets {A} (f : world -> A) : M A := fun _ w => (Ok (f w), w).
Definition modify (f : world -> world) : M unit := fun _ w => (Ok tt, f w).

(** [try: m except X: h(X)] *)
Definition try_except {A} (m : M A) (h : exn -> M A) : M A :=
  fun e w =>
    let (r, w') := m e w in
    match r with
    | Ok a => (Ok a, w')
    | Err x => h x e w'
    end.

(** [try: m finally: fin]; an exception of [fin] replaces [m]'s outcome. *)
Definition try_finally {A} (m : M A) (fin : M unit) : M A :=
  fun e w =>
    let (r, w') := m e w in
    let (r2, w'') := fin e w' in
    match r2 with
    | Ok _ => (r, w'')
    | Err x => (Err x, w'')
    end.

Definition add_event (w : world) (ev : event) : world :=
  {| fs := fs w; log := log w ++ [ev]; stdout := stdout w; tmp_counter := tmp_counter w |}.

Definition emit (ev : event) : M unit := modify (fun w => add_event w ev).

Definition print (line : string) : M unit :=
  modify (fun w => {| fs := fs w; log := log w;
                      stdout := stdout w ++ [line]; tmp_counter := tmp_counter w |}).

Definition set_node (p : path) (n : node) : M unit :=
  modify (fun w => {| fs := fs_set (fs w) p n; log := log w;
                      stdout := stdout w; tmp_counter := tmp_counter w |}).

Fixpoint for_each {A} (l : list A) (k : A -> M unit) : M unit :=
  match l with
  | [] => ret tt
  | x :: t => k x;; for_each t k
  end.

(** ** File operations *)

(** The path resolution of [open]: each proper ancestor of [target], from
    the root down, must be a directory; a missing one gives
    [FileNotFoundError] and a file in the way [NotADirectoryError]. *)
Fixpoint walk_dirs (m : fs_t) (seen rest : path) (target : path) : option exn :=
  match rest with
  | [] | [_] => None
  | d :: rest' =>
      let q := seen ++ [d] in
      match fs_lookup m q with
      | Some Dir => walk_dirs m q rest' target
      | Some (File _) => Some (NotADirectoryError target)
      | None => Some (FileNotFoundError target)
      end
  end.

(** [open(p, "wb")]: the ancestors are resolved, a directory at [p] gives
    [IsADirectoryError], and the file is created or truncated. *)
Definition open_wb (p : path) : M unit :=
  m <- gets fs;;
  match walk_dirs m [] p p with
  | Some x => raise x
  | None =>
      if dir_exists m p then raise (IsADirectoryError p)
      else set_node p (File []);; emit (EvOpenWrite p)
  end.

(** Writing the whole of [data] to the file [p] opened for writing. *)
Definition write_file (p : path) (data : bytes) : M unit :=
  set_node p (File data);; emit (EvWrite p data).

(** [open(p, "rb")], giving the bytes a read of the handle returns. *)
Definition open_rb (p : path) : M bytes :=
  m <- gets fs;;
  match fs_lookup m p with
  | Some (File b) => emit (EvRead p);; ret b
  | Some Dir => raise (IsADirectoryError p)
  | None => raise (FileNotFoundError p)
  end.

(** [tempfile.mkdtemp()]: the first of at most [TMP_MAX] random names
    under the temporary root that is not taken is created. *)
Fixpoint mkdtemp_from (fuel n : nat) : M path :=
  match fuel with
  | 0 => root <- asks tmp_root;; raise (FileExistsError root)
  | S f =>
      root <- asks tmp_root;;
      nm <- asks (fun e => tmp_name e n);;
      let d := root ++ [nm] in
      m <- gets fs;;
      if negb (dir_exists m root) then raise (FileNotFoundError d)
      else match fs_lookup m d with
           | Some _ => mkdtemp_from f (S n)
           | None =>
               set_node d Dir;;
               modify (fun w => {| fs := fs w; log := log w; stdout := stdout w;
                                   tmp_counter := S n |});;
               emit (EvMkdtemp d);;
               ret d
           end
  end.

Definition mkdtemp : M path :=
  n <- gets tmp_counter;;
  fuel <- asks tmp_max;;
  mkdtemp_from fuel n.

(** [shutil.rmtree(d)], run by [TemporaryDirectory.cleanup]. *)
Definition rmtree (d : path) : M unit :=
  modify (fun w => {| fs := fs_rmtree (fs w) d; log := log w;
                      stdout := stdout w; tmp_counter := tmp_counter w |});;
  emit (EvRmtree d).

(** [with tempfile.TemporaryDirectory() as tmpdir: body(tmpdir)] *)
Definition with_temporary_directory {A} (body : path -> M A) : M A :=
  tmpdir <- mkdtemp;;
  try_finally (body tmpdir) (rmtree tmpdir).

(** [json.load] *)
Definition json_load (b : bytes) : M manifest :=
  parse <- asks json_parse;;
  match parse b with
  | Some m => ret m
  | None => raise JSONDecodeError
  end.

(** ** [S3Path] methods that call the client *)

(** [client.head_object(Bucket=..., Key=...)] *)
Definition head_object (p : S3Path) : M unit :=
  emit (EvHead (bucket p) (key p));;
  h <- asks (fun e => head e (bucket p) (key p));;
  match h with
  | None => ret tt
  | Some x => raise x
  end.

(** [S3Path.is_object] *)
Definition is_object (p : S3Path) : M bool :=
  try_except (head_object p;; ret true)
    (fun x => match x with
              | ClientError _ => ret false
              | _ => raise x
              end).

(** [S3Path.load_json] *)
Definition load_json (p : S3Path) : M manifest :=
  emit (EvGetObject (bucket p) (key p));;
  r <- asks (fun e => fetch e (bucket p) (key p));;
  body <- lift r;;
  json_load body.

(** [S3Path.get(client, fd)] where [fd] is the file [target] opened for
    writing.  [download_fileobj] writes the object in parts as they
    arrive; when the transfer fails the file keeps what was written and
    the exception propagates. *)
Definition get (p : S3Path) (target : path) : M unit :=
  emit (EvDownload (bucket p) (key p));;
  r <- asks (fun e => fetch e (bucket p) (key p));;
  match r with
  | Ok body => write_file target body
  | Err x =>
      part <- asks (fun e => partial_download e (bucket p) (key p));;
      write_file target part;;
      raise x
  end.

(** [map(self.from_object, page["Contents"])] applies the classmethod
    [from_object(cls, bucket, object)] to one argument: each call raises
    [TypeError]. *)
Definition from_object_type_error : exn :=
  TypeError "S3Path.from_object() missing 1 required positional argument: 'object'".

Definition from_object_one_arg (o : string) : res S3Path :=
  Err from_object_type_error.

(** [for obj in p.ls(client): k(obj)].  The generator asks the client for
    its [paginator] attribute on the first [next()]; each page is then
    fetched as the loop reaches it, its ["Contents"] entry is read, and
    [yield from map(...)] calls [from_object] on each entry. *)
Definition ls (p : S3Path) (k : S3Path -> M unit) : M unit :=
  hp <- asks has_paginator;;
  if negb hp then raise (AttributeError "paginator")
  else
    pages <- asks (fun e => list_pages e (bucket p) (key p));;
    for_each pages (fun pg =>
      emit (EvListPage (bucket p) (key p));;
      contents <- lift pg;;
      match contents with
      | None => raise (KeyError "Contents")
      | Some keys => for_each keys (fun kk => obj <- lift (from_object_one_arg kk);; k obj)
      end).

(** ** [RuntimeContext] *)

Record RuntimeContext := {
  map_location : option S3Path;
  config_location : option S3Path;
  working_dir : path;
  home_dir : path
}.

Definition is_maps_provided (ctx : RuntimeContext) : bool :=
  match map_location ctx with Some _ => true | None => false end.

Definition is_config_provided (ctx : RuntimeContext) : bool :=
  match config_location ctx with Some _ => true | None => false end.

(** [RuntimeContext.from_urls]; [Path.cwd().resolve()] and
    [Path.home().resolve()] come from the environment. *)
Definition from_urls (map_url config_url : string) : M RuntimeContext :=
  ml <- lift (from_url map_url);;
  cl <- lift (from_url config_url);;
  wd <- asks cwd;;
  hd <- asks home;;
  ret {| map_location := ml; config_location := cl;
         working_dir := wd; home_dir := hd |}.

(** [for obj in ctx.maps: k(obj)]: the objects of [ls] whose key ends
    with [".bsp.bz2"]. *)
Definition maps (ctx : RuntimeContext) (k : S3Path -> M unit) : M unit :=
  match map_location ctx with
  | None => raise (AttributeError "ls")
  | Some l => ls l (fun obj => if ends_with ".bsp.bz2" (key obj) then k obj else ret tt)
  end.

Definition map_dir (ctx : RuntimeContext) : path := pdiv (working_dir ctx) "maps".

Definition static_manifest_path (ctx : RuntimeContext) : path :=
  pdiv (home_dir ctx) "manifest.json".

(** [RuntimeContext.config_manifest] *)
Definition config_manifest (ctx : RuntimeContext) : M manifest :=
  match config_location ctx with
  | None => raise (AttributeError "navigate")
  | Some cfg =>
      let dynamic_manifest := navigate cfg ["manifest.json"] in
      ex <- is_object dynamic_manifest;;
      if ex then load_json dynamic_manifest
      else
        b <- open_rb (static_manifest_path ctx);;
        json_load b
  end.

(** [shutil.copyfileobj(bz2_fd, bsp_fd)] with [bsp_fd] opened ["rb"]: the
    decompressed stream is read chunk by chunk and the first non-empty
    chunk is written to [bsp_fd], which raises
    [io.UnsupportedOperation]; a stream that breaks before producing
    anything raises its own error, and an empty stream copies nothing. *)
Definition copy_bz2_to_read_handle (compressed : bytes) : M unit :=
  dec <- asks bz2_decompress;;
  match dec compressed with
  | (_ :: _, _) => raise (UnsupportedOperation "write")
  | ([], Some x) => raise x
  | ([], None) => ret tt
  end.

(** [RuntimeContext.download_map] *)
Definition download_map (ctx : RuntimeContext) (tmpdir : path) (obj : S3Path) : M unit :=
  let tmpfile := pdiv tmpdir (base_name obj) in
  let mapfile := pdiv (map_dir ctx) (base_name obj) in
  open_wb tmpfile;;
  get obj tmpfile;;
  compressed <- open_rb tmpfile;;     (* bz2.BZ2File(tmpfile) *)
  _ <- open_rb mapfile;;              (* mapfile.open("rb") *)
  copy_bz2_to_read_handle compressed.

(** [RuntimeContext.download_maps] *)
Definition download_maps (ctx : RuntimeContext) : M unit :=
  with_temporary_directory (fun tmpdir => maps ctx (download_map ctx tmpdir)).

Definition config_target (ctx : RuntimeContext) (filename directory : string) : path :=
  pdiv (pdiv (working_dir ctx) directory) filename.

(** [RuntimeContext.download_configuration_file] *)
Definition download_configuration_file (ctx : RuntimeContext) (filename directory : string)
  : M unit :=
  match config_location ctx with
  | None => raise (AttributeError "navigate")
  | Some cfg =>
      let target_path := config_target ctx filename directory in
      let source_path := navigate cfg [filename] in
      open_wb target_path;;
      get source_path target_path
  end.

(** The loop of [download_configuration_files] over the manifest's items. *)
Definition download_manifest_entries (ctx : RuntimeContext) (m : manifest) : M unit :=
  for_each m (fun fd => download_configuration_file ctx (fst fd) (snd fd)).

(** [RuntimeContext.download_configuration_files] *)
Definition download_configuration_files (ctx : RuntimeContext) : M unit :=
  m <- config_manifest ctx;;
  download_manifest_entries ctx m.

(** [parse_args], given the values of [--maps] and [--config] (both
    default to [""]). *)
Definition parse_args (maps_arg config_arg : string) : M RuntimeContext :=
  from_urls maps_arg config_arg.

(** The maps step of [main]. *)
Definition maps_phase (ctx : RuntimeContext) : M unit :=
  match map_location ctx with
  | Some l =>
      print ("Downloading custom maps from repository: " ++ url l)%string;;
      download_maps ctx
  | None => print "Skipping custom map download - no map repository provided"
  end.

(** The configuration step of [main]. *)
Definition config_phase (ctx : RuntimeContext) : M unit :=
  match config_location ctx with
  | Some l =>
      print ("Downloading dynamic configuration from repository: " ++ url l)%string;;
      download_configuration_files ctx
  | None => print "Skipping dynamic configuration - no configuration repository provided"
  end.

(** [main]; an exception escaping it makes the process exit non-zero. *)
Definition main (maps_arg config_arg : string) : M nat :=
  print "Beginning server configuration...";;
  ctx <- parse_args maps_arg config_arg;;
  maps_phase ctx;;
  config_phase ctx;;
  print "Server configuration successful - starting SRCDS...";;
  ret 0.

(** ** A deployment used for concrete runs

    Maps under [s3://fastdl/gmod/maps], configuration under
    [s3://configuration/gmod], the server in [/srv] with [/srv/maps] and
    [/srv/cfg], the static manifest at [/root/manifest.json]. *)

Definition ex_map_keys : list string :=
  ["/gmod/maps/a.bsp.bz2"; "/gmod/maps/a.txt"; "/gmod/maps/b.bsp.bz2"].

(** A client answering every object with the one byte ["A"], decompressing
    to the payload itself, parsing a one-byte document as
    [{"server.cfg": "cfg"}], a two-byte one as
    [{"server.cfg": "cfg", "motd.txt": "cfg"}] and a longer one as
    [{"server.cfg": "cfg", "motd.txt": "missing", "banner.txt": "cfg"}]
    (no directory [/srv/missing] exists); [pg] says whether it has a [paginator]
    attribute and [h] is the outcome of every [head_object]. *)
Definition ex_env (pg : bool) (h : option exn) : env := {|
  has_paginator := pg;
  list_pages := fun _ p =>
    if String.eqb p "/gmod/maps" then [Ok (Some ex_map_keys)] else [Ok None];
  head := fun _ _ => h;
  fetch := fun _ _ => Ok [Byte.x41];
  partial_download := fun _ _ => [];
  json_parse := fun b =>
    match b with
    | [] => None
    | [_] => Some [("server.cfg", "cfg")]
    | [_; _] => Some [("server.cfg", "cfg"); ("motd.txt", "cfg")]
    | _ => Some [("server.cfg", "cfg"); ("motd.txt", "missing"); ("banner.txt", "cfg")]
    end;
  bz2_decompress := fun b => (b, None);
  cwd := ["srv"];
  home := ["root"];
  tmp_root := ["tmp"];
  tmp_name := fun _ => "tmpa1b2";
  tmp_max := 3
|}.

Definition ex_world : world := {|
  fs := [(["srv"], Dir); (["srv"; "maps"], Dir); (["srv"; "cfg"], Dir);
         (["tmp"], Dir); (["root"], Dir);
         (["root"; "manifest.json"], File [Byte.x7b])];
  log := [];
  stdout := [];
  tmp_counter := 0
|}.

(** The locations [--maps=s3://fastdl/gmod/maps] and
    [--config=s3://configuration/gmod] parse to. *)
Definition ex_maps_loc : S3Path := {| bucket := "fastdl"; key := "/gmod/maps" |}.
Definition ex_cfg : S3Path := {| bucket := "configuration"; key := "/gmod" |}.

Definition ex_ctx : RuntimeContext := {|
  map_location := Some ex_maps_loc;
  config_location := Some ex_cfg;
  working_dir := ["srv"];
  home_dir := ["root"]
|}.

(** The deployment of [ex_world] with a stale [/srv/maps/a.bsp.bz2]. *)
Definition ex_world_stale : world := {|
  fs := (["srv"; "maps"; "a.bsp.bz2"], File [Byte.x42]) :: fs ex_world;
  log := [];
  stdout := [];
  tmp_counter := 0
|}.

(** The deployment with [b] as its static manifest. *)
Definition with_manifest (b : bytes) (w : world) : world := {|
  fs := (["root"; "manifest.json"], File b) :: fs w;
  log := log w;
  stdout := stdout w;
  tmp_counter := tmp_counter w
|}.

(** The scratch directory [mkdtemp] draws in the deployment, created. *)
Definition with_scratch (w : world) : world := {|
  fs := (["tmp"; "tmpa1b2"], Dir) :: fs w;
  log := log w;
  stdout := stdout w;
  tmp_counter := tmp_counter w
|}.

Definition ex_env_403 : env := ex_env true (Some (ClientError "403")).

(** A configuration run whose static manifest is used. *)
Definition ex_env_404 : env := ex_env true (Some (ClientError "404")).

(** A maps location whose prefix matches no object. *)
Definition ex_ctx_empty_maps : RuntimeContext := {|
  map_location := Some {| bucket := "fastdl"; key := "/gmod/empty" |};
  config_location := None;
  working_dir := ["srv"];
  home_dir := ["root"]
|}.

(** The completed file writes among a list of events. *)
Definition writes (evs : list event) : list (path * bytes) :=
  flat_map (fun ev => match ev with EvWrite p b => [(p, b)] | _ => [] end) evs.

(** The write [pb] is the one the manifest entry [fd] asks for: the file
    [working_dir/directory/filename] receiving the bytes of the object
    [filename] under the configuration location. *)
Definition written_as (e : env) (ctx : RuntimeContext) (cfg : S3Path)
  (fd : string * string) (pb : path * bytes) : Prop :=
  fst pb = config_target ctx (fst fd) (snd fd) /\
  fetch e (bucket (navigate cfg [fst fd])) (key (navigate cfg [fst fd])) = Ok (snd pb).

(** Characters a container name of a round-tripping address avoids: the
    delimiters of the authority, the brackets, and the characters
    [urlsplit] deletes. *)
Definition bucket_char (c : ascii) : bool :=
  negb (char_in c "/?#[]") && negb (is_unsafe c).


(** Characters a key of a round-tripping address avoids: the query and
    fragment delimiters, and the characters [urlsplit] deletes. *)
Definition key_char (c : ascii) : bool :=
  negb (char_in c "?#") && negb (is_unsafe c).

Definition no_brackets (s : string) : bool :=
  str_forallb (fun c => negb (char_in c "[]")) s.


(** ** Effects on the filesystem *)

(** [m] leaves the filesystem as it finds it. *)
Definition keeps_fs {A} (m : M A) (e : env) : Prop :=
  forall w, fs (snd (m e w)) = fs w.

(** Two filesystems agree at every path outside [td]. *)
Definition agree_outside (td : path) (m1 m2 : fs_t) : Prop :=
  forall p, path_prefix td p = false -> fs_lookup m2 p = fs_lookup m1 p.

(** [m] changes the filesystem only at or below [td]. *)
Definition stays_in {A} (td : path) (m : M A) (e : env) : Prop :=
  forall w, agree_outside td (fs w) (fs (snd (m e w))).

(** A client of the deployment above whose objects decompress to an empty
    stream. *)
Definition ex_env_empty_payload : env := {|
  has_paginator := true;
  list_pages := list_pages (ex_env true None);
  head := head (ex_env true None);
  fetch := fetch (ex_env true None);
  partial_download := partial_download (ex_env true None);
  json_parse := json_parse (ex_env true None);
  bz2_decompress := fun _ => ([], None);
  cwd := ["srv"];
  home := ["root"];
  tmp_root := ["tmp"];
  tmp_name := fun _ => "tmpa1b2";
  tmp_max := 3
|}.

(** A client of the deployment above whose transfers of
    [//gmod/server.cfg] time out after writing the one byte ["A"]. *)
Definition ex_env_interrupted : env := {|
  has_paginator := true;
  list_pages := list_pages (ex_env true None);
  head := head (ex_env true None);
  fetch := fun _ k =>
    if String.eqb k "//gmod/server.cfg" then Err (BotoCoreError "ReadTimeoutError")
    else Ok [Byte.x41];
  partial_download := fun _ _ => [Byte.x41];
  json_parse := json_parse (ex_env true None);
  bz2_decompress := bz2_decompress (ex_env true None);
  cwd := ["srv"];
  home := ["root"];
  tmp_root := ["tmp"];
  tmp_name := fun _ => "tmpa1b2";
  tmp_max := 3
|}.

(** ** Generic facts about the embedding *)

Lemma path_eqb_eq : forall p q, path_eqb p q = true -> p = q.
Proof.
  induction p as [|x p IH]; destruct q as [|y q]; simpl; try discriminate; auto.
  intros H. apply andb_true_iff in H as [H1 H2].
  apply String.eqb_eq in H1. subst. f_equal. auto.
Qed.

Lemma fs_lookup_rmtree : forall m d p,
  path_prefix d p = true -> fs_lookup (fs_rmtree m d) p = None.
Proof.
  induction m as [|[q n] m IH]; intros d p Hp; simpl; auto.
  destruct (path_prefix d q) eqn:Hq; simpl.
  - apply IH; auto.
  - destruct (path_eqb q p) eqn:Hqp.
    + apply path_eqb_eq in Hqp. subst. congruence.
    + apply IH; auto.
Qed.

(** A loop over [l] fails when its body fails on some element whatever the
    state. *)
Lemma for_each_fails {A} : forall (l : list A) (k : A -> M unit) a e,
  In a l ->
  (forall w, exists x w', k a e w = (Err x, w')) ->
  forall w, exists x w', for_each l k e w = (Err x, w').
Proof.
  induction l as [|b l IH]; intros k a e Hin Hk w; simpl in *; [contradiction|].
  unfold bind. destruct Hin as [<-|Hin].
  - destruct (Hk w) as (x & w' & ->). eauto.
  - destruct (k b e w) as [[u|x] w1]; eauto.
Qed.

(** ** C1: the existence probe of the dynamic manifest *)

(** C1 (counterexample): the probe answering [ClientError] 403 (access
    denied, not "not found") does not abort: the static manifest
    [{"server.cfg": "cfg"}] is returned. *)
Lemma C1_access_denied_probe_falls_back :
  fst (config_manifest ex_ctx (ex_env true (Some (ClientError "403"))) ex_world)
  = Ok [("server.cfg", "cfg")].
Proof. reflexivity. Qed.

(** C1 (amended): every [ClientError] raised by the probe, whatever its
    code, selects the static manifest exactly as a "not found" does; an
    exception of any other kind raised by the probe propagates, and
    nothing else happens. *)
Theorem config_manifest_probe_errors : forall e w ctx cfg,
  config_location ctx = Some cfg ->
  let dyn := navigate cfg ["manifest.json"] in
  let w1 := add_event w (EvHead (bucket dyn) (key dyn)) in
  (forall code, head e (bucket dyn) (key dyn) = Some (ClientError code) ->
     config_manifest ctx e w
     = (b <- open_rb (static_manifest_path ctx);; json_load b) e w1) /\
  (forall x, head e (bucket dyn) (key dyn) = Some x ->
     (forall code, x <> ClientError code) ->
     config_manifest ctx e w = (Err x, w1)).
Proof.
  intros e w ctx cfg Hc dyn w1. split.
  - intros code Hh. unfold config_manifest. rewrite Hc. fold dyn.
    unfold bind at 1, is_object, try_except, head_object, bind, emit, modify, asks.
    fold w1. clearbody w1 dyn. simpl. rewrite Hh. reflexivity.
  - intros x Hh Hx. unfold config_manifest. rewrite Hc. fold dyn.
    unfold bind at 1, is_object, try_except, head_object, bind, emit, modify, asks.
    fold w1. clearbody w1 dyn. simpl. rewrite Hh.
    destruct x; try reflexivity. exfalso. eapply Hx; reflexivity.
Qed.

Lemma C1_witness :
  head ex_env_403 "configuration" "//gmod/manifest.json" = Some (ClientError "403") /\
  config_manifest ex_ctx ex_env_403 ex_world
  = (b <- open_rb ["root"; "manifest.json"];; json_load b) ex_env_403
      (add_event ex_world (EvHead "configuration" "//gmod/manifest.json")).
Proof.
  split; [reflexivity|].
  exact (proj1 (config_manifest_probe_errors ex_env_403 ex_world ex_ctx ex_cfg eq_refl)
           "403" eq_refl).
Defined.

(** ** C2: synchronising the maps *)

Lemma for_each_ext {A} : forall (l : list A) (k1 k2 : A -> M unit) e w,
  (forall a e w, k1 a e w = k2 a e w) -> for_each l k1 e w = for_each l k2 e w.
Proof.
  induction l as [|a t IH]; intros k1 k2 e w H; simpl; [reflexivity|].
  unfold bind. rewrite H. destruct (k2 a e w) as [[u|x] w1]; [apply IH; exact H|reflexivity].
Qed.

(** The body of [for obj in p.ls(client)] is never run: the first object
    of the first non-empty page raises [TypeError] in [from_object]. *)
Lemma ls_body_unreached : forall p k1 k2 e w, ls p k1 e w = ls p k2 e w.
Proof.
  intros p k1 k2 e w. unfold ls, bind, asks.
  destruct (negb (has_paginator e)); [reflexivity|].
  apply for_each_ext. intros pg e1 w1.
  destruct (emit _ e1 w1) as [[u|x] w2]; [|reflexivity].
  destruct pg as [[keys|]|x]; simpl; try reflexivity.
Qed.

Lemma maps_body_unreached : forall ctx k1 k2 e w, maps ctx k1 e w = maps ctx k2 e w.
Proof.
  intros ctx k1 k2 e w. unfold maps.
  destruct (map_location ctx); [apply ls_body_unreached|reflexivity].
Qed.

(** C2 (code_bug, evaluated at the listing [a.bsp.bz2; a.txt; b.bsp.bz2]):
    no map is ever written.  For every context, client and world,
    [download_maps] runs as if each listed object were skipped: the call
    [map(self.from_object, page["Contents"])] passes [from_object] one
    argument of its two, so the first object of the first non-empty page
    raises [TypeError] before [download_map] is reached.  At the listing
    the run fails with that [TypeError] and neither [/srv/maps/a.bsp] nor
    [/srv/maps/b.bsp] exists; with boto3's client, which has no
    [paginator] attribute, the listing raises [AttributeError] already.
    [download_map] itself, called directly on [a.bsp.bz2], opens
    [/srv/maps/a.bsp.bz2] (base name kept) for reading: it fails with
    [FileNotFoundError] when that file is absent, and when it exists the
    copy into the read-only handle raises. *)
Lemma C2_download_maps_at_listing :
  (forall ctx e w,
     download_maps ctx e w
     = with_temporary_directory (fun _ => maps ctx (fun _ => ret tt)) e w) /\
  fst (download_maps ex_ctx (ex_env true None) ex_world)
    = Err (TypeError "S3Path.from_object() missing 1 required positional argument: 'object'") /\
  fs_lookup (fs (snd (download_maps ex_ctx (ex_env true None) ex_world)))
    ["srv"; "maps"; "a.bsp"] = None /\
  fs_lookup (fs (snd (download_maps ex_ctx (ex_env true None) ex_world)))
    ["srv"; "maps"; "b.bsp"] = None /\
  fst (download_maps ex_ctx (ex_env false None) ex_world)
    = Err (AttributeError "paginator") /\
  fst (download_map ex_ctx ["tmp"; "tmpa1b2"]
         {| bucket := "fastdl"; key := "/gmod/maps/a.bsp.bz2" |}
         (ex_env true None) (with_scratch ex_world))
    = Err (FileNotFoundError ["srv"; "maps"; "a.bsp.bz2"]) /\
  fst (download_map ex_ctx ["tmp"; "tmpa1b2"]
         {| bucket := "fastdl"; key := "/gmod/maps/a.bsp.bz2" |}
         (ex_env true None) (with_scratch ex_world_stale))
    = Err (UnsupportedOperation "write").
Proof.
  split; [|repeat split; reflexivity].
  intros ctx e w. unfold download_maps, with_temporary_directory, bind, try_finally.
  destruct (mkdtemp e w) as [[td|x] w1]; [|reflexivity].
  rewrite (maps_body_unreached ctx _ (fun _ => ret tt)). reflexivity.
Qed.

(** ** C3: resolving the manifest *)

(** C3: the probe targets [manifest.json] under the configuration
    location; when it succeeds, the fetched object parsed is the result,
    and the calls are the probe and the fetch, with no read of the static
    file; when it answers "not found", the static file parsed is the
    result, and the only remote call is the probe, the static file being
    the only thing read. *)
Theorem config_manifest_dynamic_or_static : forall e w ctx cfg,
  config_location ctx = Some cfg ->
  let dyn := navigate cfg ["manifest.json"] in
  (head e (bucket dyn) (key dyn) = None ->
     match config_manifest ctx e w with
     | (r, w') =>
         r = match fetch e (bucket dyn) (key dyn) with
             | Ok b => match json_parse e b with
                       | Some m => Ok m
                       | None => Err JSONDecodeError
                       end
             | Err x => Err x
             end /\
         fs w' = fs w /\
         log w' = log w ++ [EvHead (bucket dyn) (key dyn); EvGetObject (bucket dyn) (key dyn)]
     end) /\
  (head e (bucket dyn) (key dyn) = Some (ClientError "404") ->
     match config_manifest ctx e w with
     | (r, w') =>
         r = match fs_lookup (fs w) (static_manifest_path ctx) with
             | Some (File b) => match json_parse e b with
                                | Some m => Ok m
                                | None => Err JSONDecodeError
                                end
             | Some Dir => Err (IsADirectoryError (static_manifest_path ctx))
             | None => Err (FileNotFoundError (static_manifest_path ctx))
             end /\
         fs w' = fs w /\
         (log w' = log w ++ [EvHead (bucket dyn) (key dyn)] \/
          log w' = log w ++ [EvHead (bucket dyn) (key dyn); EvRead (static_manifest_path ctx)])
     end).
Proof.
  intros e w ctx cfg Hc dyn. split; intros Hh;
    unfold config_manifest; rewrite Hc; fold dyn; clearbody dyn;
    unfold bind at 1, is_object, try_except, head_object, bind, emit, modify, asks;
    simpl; rewrite Hh; simpl.
  - unfold load_json, json_load, bind, emit, modify, asks, lift, ret, raise; simpl.
    destruct (fetch e (bucket dyn) (key dyn)) as [b|x]; simpl;
      [destruct (json_parse e b)|]; simpl; rewrite <- ?app_assoc; simpl; auto.
  - unfold open_rb, json_load, gets, bind, emit, modify, asks, ret, raise; simpl.
    destruct (fs_lookup (fs w) (static_manifest_path ctx)) as [[b|]|]; simpl;
      [destruct (json_parse e b)|..]; simpl; rewrite <- ?app_assoc; simpl; auto.
Qed.

Lemma C3_witness :
  head (ex_env true None) "configuration" "//gmod/manifest.json" = None /\
  fst (config_manifest ex_ctx (ex_env true None) ex_world) = Ok [("server.cfg", "cfg")].
Proof.
  split; [reflexivity|].
  pose proof (proj1 (config_manifest_dynamic_or_static (ex_env true None) ex_world
                       ex_ctx ex_cfg eq_refl) eq_refl) as H.
  revert H. destruct (config_manifest ex_ctx (ex_env true None) ex_world) as [r w'].
  intros [Hr _]. rewrite Hr. reflexivity.
Defined.

(** ** C4: child locations *)

Lemma split_on_not_nil : forall c s, split_on c s <> [].
Proof.
  intros c s. destruct s as [|x r]; simpl; [discriminate|].
  destruct (ceqb x c); [discriminate|]. destruct (split_on c r); discriminate.
Qed.

(** C4 (code_bug): for a key that already starts with the separator, as
    every key [from_url] produces does, [navigate] keeps the bucket and
    gives a key starting with two separators; on [s3://configuration/gmod]
    and ["manifest.json"] the key is ["//gmod/manifest.json"], not
    ["/gmod/manifest.json"]. *)
Lemma C4_navigate_doubles_leading_separator :
  navigate ex_cfg ["manifest.json"]
    = {| bucket := "configuration"; key := "//gmod/manifest.json" |} /\
  forall b k segs,
    bucket (navigate {| bucket := b; key := String "/" k |} segs) = b /\
    exists rest, key (navigate {| bucket := b; key := String "/" k |} segs)
                 = String "/" (String "/" rest).
Proof.
  split; [reflexivity|].
  intros b k segs. split; [reflexivity|]. unfold navigate. simpl.
  destruct (split_on "/" k ++ segs) as [|x t] eqn:E.
  - apply app_eq_nil in E as [E _]. exfalso. exact (split_on_not_nil _ _ E).
  - exists (join "/" (x :: t)). reflexivity.
Qed.

(** ** C6: the maps phase precedes the configuration phase *)

(** C6: once the arguments are parsed, [main] runs the maps phase and then
    the configuration phase, from a state differing from the initial one
    only by a line of output; a failure of the maps phase is the outcome of
    the whole run, in the very state the maps phase left, so no action of
    the configuration phase takes place. *)
Theorem main_maps_phase_first : forall e w ms cs ml cl,
  from_url ms = Ok ml -> from_url cs = Ok cl ->
  let ctx := {| map_location := ml; config_location := cl;
                working_dir := cwd e; home_dir := home e |} in
  exists w1, fs w1 = fs w /\ log w1 = log w /\
    main ms cs e w
      = (maps_phase ctx;; config_phase ctx;;
         print "Server configuration successful - starting SRCDS...";; ret 0) e w1 /\
    (forall x w2, maps_phase ctx e w1 = (Err x, w2) -> main ms cs e w = (Err x, w2)).
Proof.
  intros e w ms cs ml cl Hm Hc ctx.
  set (w1 := {| fs := fs w; log := log w;
                stdout := stdout w ++ ["Beginning server configuration..."];
                tmp_counter := tmp_counter w |}).
  assert (Hmain : main ms cs e w
      = (maps_phase ctx;; config_phase ctx;;
         print "Server configuration successful - starting SRCDS...";; ret 0) e w1).
  { unfold main, parse_args, from_urls, lift, asks, ret.
    unfold bind at 1 2 3 4 5 6 7. unfold print at 1, modify at 1.
    fold w1. rewrite Hm, Hc. reflexivity. }
  exists w1. split; [reflexivity|]. split; [reflexivity|]. split; [exact Hmain|].
  intros x w2 Hx. rewrite Hmain. unfold bind at 1. rewrite Hx. reflexivity.
Qed.

Lemma C6_witness :
  from_url "s3://fastdl/gmod/maps" = Ok (Some ex_maps_loc) /\
  from_url "s3://configuration/gmod" = Ok (Some ex_cfg) /\
  exists w1, fs w1 = fs ex_world /\ log w1 = log ex_world /\
    main "s3://fastdl/gmod/maps" "s3://configuration/gmod" (ex_env true None) ex_world
      = (maps_phase ex_ctx;; config_phase ex_ctx;;
         print "Server configuration successful - starting SRCDS...";; ret 0)
          (ex_env true None) w1 /\
    (forall x w2, maps_phase ex_ctx (ex_env true None) w1 = (Err x, w2) ->
       main "s3://fastdl/gmod/maps" "s3://configuration/gmod" (ex_env true None) ex_world
       = (Err x, w2)).
Proof.
  split; [reflexivity|]. split; [reflexivity|].
  exact (main_maps_phase_first (ex_env true None) ex_world
           "s3://fastdl/gmod/maps" "s3://configuration/gmod"
           (Some ex_maps_loc) (Some ex_cfg) eq_refl eq_refl).
Defined.

(** ** C7: the scratch directory *)

(** C7: when [mkdtemp] creates the scratch directory [td], nothing at or
    below [td] is left once the maps phase is over, whether the loop
    succeeded or raised; when [mkdtemp] fails, the phase fails with it
    before anything else. *)
Theorem download_maps_removes_scratch : forall e w ctx,
  match mkdtemp e w with
  | (Ok td, _) =>
      forall p, path_prefix td p = true ->
        fs_lookup (fs (snd (download_maps ctx e w))) p = None
  | (Err x, w1) => download_maps ctx e w = (Err x, w1)
  end.
Proof.
  intros e w ctx. destruct (mkdtemp e w) as [[td|x] w1] eqn:E;
    unfold download_maps, with_temporary_directory, bind at 1; rewrite E;
    [|reflexivity].
  intros p Hp. unfold try_finally.
  destruct (maps ctx (download_map ctx td) e w1) as [r w2].
  unfold rmtree, bind, modify, emit, add_event. simpl.
  apply fs_lookup_rmtree. exact Hp.
Qed.

Lemma C7_witness :
  fst (mkdtemp (ex_env true None) ex_world) = Ok ["tmp"; "tmpa1b2"] /\
  fs_lookup (fs (snd (download_maps ex_ctx (ex_env true None) ex_world)))
    ["tmp"; "tmpa1b2"; "a.bsp.bz2"] = None.
Proof.
  split; [reflexivity|].
  pose proof (download_maps_removes_scratch (ex_env true None) ex_world ex_ctx) as H.
  revert H. destruct (mkdtemp (ex_env true None) ex_world) as [[td|x] w1] eqn:E.
  - vm_compute in E. injection E as <- _. intros H. apply H. reflexivity.
  - vm_compute in E. discriminate E.
Defined.

(** ** C8: a run with no source *)

(** C8 (counterexample): a maps address [urlparse] cannot parse (an
    unmatched ["["] in the authority) with no config address does not
    complete with exit code 0: [parse_args] raises [ValueError]. *)
Lemma C8_unparsable_maps_address_raises :
  fst (main "s3://[fastdl/gmod/maps" "" (ex_env true None) ex_world)
  = Err (ValueError "Invalid IPv6 URL").
Proof. reflexivity. Qed.

Lemma check_bracketed_host_err : forall h x,
  check_bracketed_host h = Err x -> exists msg, x = ValueError msg.
Proof.
  intros h x. unfold check_bracketed_host.
  destruct (starts_with "v" h);
    [destruct (ipvfuture_ok h)|destruct (ipv4_ok h); [|destruct (ipv6_ok h)]];
    intros H; try discriminate; injection H as <-; eauto.
Qed.

Lemma netloc_ok_err : forall nl x, netloc_ok nl = Err x -> exists msg, x = ValueError msg.
Proof.
  intros nl x. unfold netloc_ok.
  destruct ((str_has "[" nl && negb (str_has "]" nl)) || (str_has "]" nl && negb (str_has "[" nl)));
    [intros H; injection H as <-; eauto|].
  destruct (str_has "[" nl && str_has "]" nl); [|discriminate].
  unfold check_bracketed_netloc.
  destruct (split_once "[" (after_last "@" nl)) as [[before br]|];
    [|apply check_bracketed_host_err].
  destruct (negb (String.eqb before EmptyString)); [intros H; injection H as <-; eauto|].
  destruct (match split_once "]" br with Some (a, b) => (a, b) | None => (br, EmptyString) end)
    as [hn port].
  destruct (negb (String.eqb port EmptyString) && negb (starts_with ":" port));
    [intros H; injection H as <-; eauto|apply check_bracketed_host_err].
Qed.

(** Every exception of [from_url] is a [ValueError] of [urlsplit]. *)
Lemma from_url_err : forall s x, from_url s = Err x -> exists msg, x = ValueError msg.
Proof.
  intros s x. unfold from_url, urlsplit.
  destruct (split_scheme (remove_unsafe (lstrip_c0 s))) as [sch u2].
  destruct (if starts_with "//" u2
            then split_first netloc_delim (substring 2 (String.length u2 - 2) u2)
            else (EmptyString, u2)) as [nl u3].
  destruct (netloc_ok nl) as [u|y] eqn:E.
  - destruct (match split_once "#" u3 with Some (a, b) => (a, b) | None => (u3, EmptyString) end)
      as [u4 fr].
    destruct (match split_once "?" u4 with Some (a, b) => (a, b) | None => (u4, EmptyString) end)
      as [pth q].
    cbn. destruct (_ && _); intros H; discriminate H.
  - intros H; injection H as <-. exact (netloc_ok_err _ _ E).
Qed.

(** C8 (amended): when both arguments parse to absence, [main] returns 0,
    and the filesystem and the log of remote calls and filesystem actions
    are unchanged; when [urlparse] rejects the maps address, or the maps
    address parses and [urlparse] rejects the config address, [main]
    raises that [ValueError] having printed only the opening line, before
    either phase, and nothing else changes. *)
Theorem main_without_sources : forall e w ms cs,
  (from_url ms = Ok None -> from_url cs = Ok None ->
   exists w', main ms cs e w = (Ok 0, w') /\ fs w' = fs w /\ log w' = log w) /\
  (forall x,
     (from_url ms = Err x \/ (exists r, from_url ms = Ok r /\ from_url cs = Err x)) ->
     exists msg, x = ValueError msg /\
       main ms cs e w
       = (Err x, {| fs := fs w; log := log w;
                    stdout := stdout w ++ ["Beginning server configuration..."];
                    tmp_counter := tmp_counter w |})).
Proof.
  intros e w ms cs. split.
  - intros Hm Hc.
    unfold main, parse_args, from_urls, maps_phase, config_phase, print, modify,
      lift, asks, ret, bind.
    rewrite Hm, Hc. simpl. eexists. split; [reflexivity|]. split; reflexivity.
  - intros x [Hm|(r & Hm & Hc)].
    + destruct (from_url_err ms x Hm) as [msg Hx]. exists msg. split; [exact Hx|].
      unfold main, parse_args, from_urls, print, modify, lift, bind.
      rewrite Hm. reflexivity.
    + destruct (from_url_err cs x Hc) as [msg Hx]. exists msg. split; [exact Hx|].
      unfold main, parse_args, from_urls, print, modify, lift, bind.
      rewrite Hm, Hc. reflexivity.
Qed.

Lemma C8_witness :
  from_url "" = Ok None /\ from_url "http://fastdl/gmod/maps" = Ok None /\
  (exists w', main "http://fastdl/gmod/maps" "" (ex_env true None) ex_world = (Ok 0, w') /\
    fs w' = fs ex_world /\ log w' = log ex_world) /\
  exists msg,
    ValueError "'abc' does not appear to be an IPv4 or IPv6 address" = ValueError msg /\
    main "s3://[abc]/k" "" (ex_env true None) ex_world
    = (Err (ValueError "'abc' does not appear to be an IPv4 or IPv6 address"),
       {| fs := fs ex_world; log := log ex_world;
          stdout := stdout ex_world ++ ["Beginning server configuration..."];
          tmp_counter := tmp_counter ex_world |}).
Proof.
  split; [reflexivity|]. split; [reflexivity|]. split.
  - apply (proj1 (main_without_sources (ex_env true None) ex_world "http://fastdl/gmod/maps" ""));
      reflexivity.
  - apply (proj2 (main_without_sources (ex_env true None) ex_world "s3://[abc]/k" "")).
    left. reflexivity.
Defined.

(** ** C9: synchronising the configuration files *)

Lemma download_configuration_file_ok : forall e w w' ctx cfg f d u,
  config_location ctx = Some cfg ->
  download_configuration_file ctx f d e w = (Ok u, w') ->
  exists b,
    fetch e (bucket (navigate cfg [f])) (key (navigate cfg [f])) = Ok b /\
    log w' = log w ++ [EvOpenWrite (config_target ctx f d);
                       EvDownload (bucket (navigate cfg [f])) (key (navigate cfg [f]));
                       EvWrite (config_target ctx f d) b].
Proof.
  intros e w w' ctx cfg f d u Hc.
  unfold download_configuration_file. rewrite Hc.
  set (t := config_target ctx f d). set (src := navigate cfg [f]).
  clearbody t src.
  unfold open_wb, get, write_file, set_node, gets, bind, emit, modify, add_event,
    asks, lift, ret, raise; simpl.
  destruct (walk_dirs (fs w) [] t t); [discriminate|].
  destruct (dir_exists (fs w) t); [discriminate|]. simpl.
  destruct (fetch e (bucket src) (key src)) as [b|x]; simpl; [|discriminate].
  intros H; injection H as _ <-; exists b; split; auto; simpl.
  rewrite <- !app_assoc; reflexivity.
Qed.

Lemma download_manifest_entries_spec : forall e ctx cfg,
  config_location ctx = Some cfg ->
  forall m w0,
  match download_manifest_entries ctx m e w0 with
  | (Ok _, w') => exists delta, log w' = log w0 ++ delta /\
                   Forall2 (written_as e ctx cfg) m (writes delta)
  | (Err x, w') => exists pre fd post w1 delta,
      m = pre ++ fd :: post /\
      download_manifest_entries ctx pre e w0 = (Ok tt, w1) /\
      log w1 = log w0 ++ delta /\
      Forall2 (written_as e ctx cfg) pre (writes delta) /\
      download_configuration_file ctx (fst fd) (snd fd) e w1 = (Err x, w')
  end.
Proof.
  intros e ctx cfg Hc m. induction m as [|fd m IH]; intros w0.
  - simpl. exists []. rewrite app_nil_r. split; [reflexivity|constructor].
  - unfold download_manifest_entries. simpl for_each. unfold bind at 1.
    destruct (download_configuration_file ctx (fst fd) (snd fd) e w0)
      as [[u|x] w1] eqn:E.
    + destruct (download_configuration_file_ok e w0 w1 ctx cfg (fst fd) (snd fd) u Hc E)
        as (b & Hf & Hlog).
      specialize (IH w1). fold (download_manifest_entries ctx m).
      destruct (download_manifest_entries ctx m e w1) as [[u'|x'] w'].
      * destruct IH as (delta & Hl & Hw).
        exists ([EvOpenWrite (config_target ctx (fst fd) (snd fd));
                 EvDownload (bucket (navigate cfg [fst fd])) (key (navigate cfg [fst fd]));
                 EvWrite (config_target ctx (fst fd) (snd fd)) b] ++ delta).
        split.
        -- rewrite Hl, Hlog, app_assoc. reflexivity.
        -- unfold writes. rewrite flat_map_app. simpl.
           constructor; [split; [reflexivity|exact Hf]|exact Hw].
      * destruct IH as (pre & fd' & post & w2 & delta & Hm & Hpre & Hl & Hw & Hfail).
        exists (fd :: pre), fd', post, w2,
          ([EvOpenWrite (config_target ctx (fst fd) (snd fd));
            EvDownload (bucket (navigate cfg [fst fd])) (key (navigate cfg [fst fd]));
            EvWrite (config_target ctx (fst fd) (snd fd)) b] ++ delta).
        split; [rewrite Hm; reflexivity|].
        split.
        { unfold download_manifest_entries. simpl for_each. unfold bind at 1.
          rewrite E. exact Hpre. }
        split; [rewrite Hl, Hlog, app_assoc; reflexivity|].
        split; [|exact Hfail].
        unfold writes. rewrite flat_map_app. simpl.
        constructor; [split; [reflexivity|exact Hf]|exact Hw].
    + exists [], fd, m, w0, []. simpl. rewrite app_nil_r.
      repeat split; [constructor|exact E].
Qed.

(** C9: with the manifest resolved to [m], the configuration files are
    processed in the order of [m]; when all succeed, the files written are,
    entry by entry, [working_dir/directory/filename] with exactly the bytes
    of the object [filename] under the configuration location; when one
    fails, the entries before it were written that way and the run ends in
    the state that entry's failure left, the later entries untouched. *)
Theorem download_configuration_files_in_order : forall e w ctx cfg m w0,
  config_location ctx = Some cfg ->
  config_manifest ctx e w = (Ok m, w0) ->
  match download_configuration_files ctx e w with
  | (Ok _, w') => exists delta, log w' = log w0 ++ delta /\
                   Forall2 (written_as e ctx cfg) m (writes delta)
  | (Err x, w') => exists pre fd post w1 delta,
      m = pre ++ fd :: post /\
      download_manifest_entries ctx pre e w0 = (Ok tt, w1) /\
      log w1 = log w0 ++ delta /\
      Forall2 (written_as e ctx cfg) pre (writes delta) /\
      download_configuration_file ctx (fst fd) (snd fd) e w1 = (Err x, w')
  end.
Proof.
  intros e w ctx cfg m w0 Hc Hm.
  unfold download_configuration_files, bind at 1. rewrite Hm.
  apply download_manifest_entries_spec. exact Hc.
Qed.

Lemma C9_witness :
  (exists m w0,
   config_location ex_ctx = Some ex_cfg /\
   config_manifest ex_ctx ex_env_404 (with_manifest [Byte.x7b; Byte.x7b] ex_world) = (Ok m, w0) /\
   match download_configuration_files ex_ctx ex_env_404 (with_manifest [Byte.x7b; Byte.x7b] ex_world) with
   | (Ok _, w') => exists delta, log w' = log w0 ++ delta /\
                    Forall2 (written_as ex_env_404 ex_ctx ex_cfg) m (writes delta)
   | (Err x, w') => exists pre fd post w1 delta,
       m = pre ++ fd :: post /\
       download_manifest_entries ex_ctx pre ex_env_404 w0 = (Ok tt, w1) /\
       log w1 = log w0 ++ delta /\
       Forall2 (written_as ex_env_404 ex_ctx ex_cfg) pre (writes delta) /\
       download_configuration_file ex_ctx (fst fd) (snd fd) ex_env_404 w1 = (Err x, w')
   end) /\
  (exists m w0,
   config_location ex_ctx = Some ex_cfg /\
   config_manifest ex_ctx ex_env_404 (with_manifest [Byte.x7b; Byte.x7b; Byte.x7b] ex_world)
   = (Ok m, w0) /\
   match download_configuration_files ex_ctx ex_env_404
           (with_manifest [Byte.x7b; Byte.x7b; Byte.x7b] ex_world) with
   | (Ok _, w') => exists delta, log w' = log w0 ++ delta /\
                    Forall2 (written_as ex_env_404 ex_ctx ex_cfg) m (writes delta)
   | (Err x, w') => exists pre fd post w1 delta,
       m = pre ++ fd :: post /\
       download_manifest_entries ex_ctx pre ex_env_404 w0 = (Ok tt, w1) /\
       log w1 = log w0 ++ delta /\
       Forall2 (written_as ex_env_404 ex_ctx ex_cfg) pre (writes delta) /\
       download_configuration_file ex_ctx (fst fd) (snd fd) ex_env_404 w1 = (Err x, w')
   end) /\
  (* the two-entry manifest: both files written with the objects' bytes *)
  fst (download_configuration_files ex_ctx ex_env_404 (with_manifest [Byte.x7b; Byte.x7b] ex_world))
    = Ok tt /\
  fs_lookup (fs (snd (download_configuration_files ex_ctx ex_env_404
                        (with_manifest [Byte.x7b; Byte.x7b] ex_world))))
    ["srv"; "cfg"; "server.cfg"] = Some (File [Byte.x41]) /\
  fs_lookup (fs (snd (download_configuration_files ex_ctx ex_env_404
                        (with_manifest [Byte.x7b; Byte.x7b] ex_world))))
    ["srv"; "cfg"; "motd.txt"] = Some (File [Byte.x41]) /\
  (* the three-entry manifest: the second entry fails, the first is
     written, the third is never reached *)
  fst (download_configuration_files ex_ctx ex_env_404
         (with_manifest [Byte.x7b; Byte.x7b; Byte.x7b] ex_world))
    = Err (FileNotFoundError ["srv"; "missing"; "motd.txt"]) /\
  fs_lookup (fs (snd (download_configuration_files ex_ctx ex_env_404
                        (with_manifest [Byte.x7b; Byte.x7b; Byte.x7b] ex_world))))
    ["srv"; "cfg"; "server.cfg"] = Some (File [Byte.x41]) /\
  fs_lookup (fs (snd (download_configuration_files ex_ctx ex_env_404
                        (with_manifest [Byte.x7b; Byte.x7b; Byte.x7b] ex_world))))
    ["srv"; "cfg"; "banner.txt"] = None.
Proof.
  split.
  { exists [("server.cfg", "cfg"); ("motd.txt", "cfg")],
      (snd (config_manifest ex_ctx ex_env_404 (with_manifest [Byte.x7b; Byte.x7b] ex_world))).
    split; [reflexivity|]. split; [vm_compute; reflexivity|].
    apply (download_configuration_files_in_order ex_env_404
             (with_manifest [Byte.x7b; Byte.x7b] ex_world) ex_ctx ex_cfg);
      [reflexivity|vm_compute; reflexivity]. }
  split.
  { exists [("server.cfg", "cfg"); ("motd.txt", "missing"); ("banner.txt", "cfg")],
      (snd (config_manifest ex_ctx ex_env_404
              (with_manifest [Byte.x7b; Byte.x7b; Byte.x7b] ex_world))).
    split; [reflexivity|]. split; [vm_compute; reflexivity|].
    apply (download_configuration_files_in_order ex_env_404
             (with_manifest [Byte.x7b; Byte.x7b; Byte.x7b] ex_world) ex_ctx ex_cfg);
      [reflexivity|vm_compute; reflexivity]. }
  repeat split; vm_compute; reflexivity.
Defined.

(** ** C10: listing a prefix with no object *)

(** C10: when a page of the listing has no ["Contents"] entry, as the
    page of a prefix matching no object, enumerating the location raises,
    whatever the loop body, and so does the whole maps phase. *)
Theorem enumeration_fails_without_contents : forall e w ctx loc,
  map_location ctx = Some loc ->
  In (Ok None) (list_pages e (bucket loc) (key loc)) ->
  (forall k w0, exists x w', ls loc k e w0 = (Err x, w')) /\
  exists x w', download_maps ctx e w = (Err x, w').
Proof.
  intros e w ctx loc Hl Hin.
  assert (Hls : forall k w0, exists x w', ls loc k e w0 = (Err x, w')).
  { intros k w0. unfold ls, bind at 1, asks. simpl.
    destruct (has_paginator e); simpl; [|unfold raise; eauto].
    apply (for_each_fails _ _ (Ok None) e Hin).
    intros w1. unfold bind, emit, modify, lift, raise. simpl. eauto. }
  split; [exact Hls|].
  unfold download_maps, with_temporary_directory, bind at 1.
  destruct (mkdtemp e w) as [[td|x] w1]; [|eauto].
  unfold try_finally, maps. rewrite Hl.
  destruct (Hls (fun obj => if ends_with ".bsp.bz2" (key obj)
                            then download_map ctx td obj else ret tt) w1)
    as (x & w2 & ->).
  unfold rmtree, bind, modify, emit. simpl. eauto.
Qed.

Lemma C10_witness :
  map_location ex_ctx_empty_maps = Some {| bucket := "fastdl"; key := "/gmod/empty" |} /\
  In (Ok None) (list_pages (ex_env true None) "fastdl" "/gmod/empty") /\
  (forall k w0, exists x w',
     ls {| bucket := "fastdl"; key := "/gmod/empty" |} k (ex_env true None) w0 = (Err x, w')) /\
  exists x w', download_maps ex_ctx_empty_maps (ex_env true None) ex_world = (Err x, w').
Proof.
  split; [reflexivity|]. split; [left; reflexivity|].
  apply enumeration_fails_without_contents; [reflexivity|left; reflexivity].
Defined.

(** ** C5: parsing addresses *)

Section StrForall.
Variable P : ascii -> bool.

Lemma str_forallb_app : forall a b,
  str_forallb P (a ++ b)%string = str_forallb P a && str_forallb P b.
Proof.
  induction a as [|c a IH]; intros b; simpl; [reflexivity|].
  rewrite IH, andb_assoc. reflexivity.
Qed.







End StrForall.

Lemma str_forallb_impl : forall (P Q : ascii -> bool) s,
  (forall c, P c = true -> Q c = true) -> str_forallb P s = true -> str_forallb Q s = true.
Proof.
  intros P Q s HPQ. induction s as [|c s IH]; simpl; auto.
  intros H. apply andb_true_iff in H as [H1 H2]. rewrite (HPQ c H1). auto.
Qed.

Lemma remove_unsafe_id : forall s,
  str_forallb (fun c => negb (is_unsafe c)) s = true -> remove_unsafe s = s.
Proof.
  induction s as [|c s IH]; simpl; auto.
  intros H. apply andb_true_iff in H as [H1 H2].
  apply negb_true_iff in H1. rewrite H1. f_equal. auto.
Qed.

Lemma substring_all : forall s, substring 0 (String.length s) s = s.
Proof. induction s as [|c s IH]; simpl; congruence. Qed.

Lemma split_first_app : forall p a b,
  str_forallb (fun c => negb (p c)) a = true ->
  split_first p (a ++ b)%string = ((a ++ fst (split_first p b))%string, snd (split_first p b)).
Proof.
  intros p a b. induction a as [|c a IH]; simpl; intros H.
  - destruct (split_first p b); reflexivity.
  - apply andb_true_iff in H as [H1 H2]. apply negb_true_iff in H1. rewrite H1.
    rewrite IH by exact H2. reflexivity.
Qed.

Lemma split_once_absent : forall ch s,
  str_forallb (fun c => negb (ceqb c ch)) s = true -> split_once ch s = None.
Proof.
  intros ch s. induction s as [|c s IH]; simpl; auto.
  intros H. apply andb_true_iff in H as [H1 H2]. apply negb_true_iff in H1.
  rewrite H1, IH by exact H2. reflexivity.
Qed.

Lemma str_has_absent : forall ch s,
  str_forallb (fun c => negb (ceqb c ch)) s = true -> str_has ch s = false.
Proof.
  intros ch s. induction s as [|c s IH]; simpl; auto.
  intros H. apply andb_true_iff in H as [H1 H2]. apply negb_true_iff in H1.
  rewrite H1. simpl. auto.
Qed.

Lemma netloc_ok_no_brackets : forall nl, no_brackets nl = true -> netloc_ok nl = Ok tt.
Proof.
  intros nl H. unfold netloc_ok.
  rewrite (str_has_absent "[" nl), (str_has_absent "]" nl); [reflexivity| |];
    revert H; apply str_forallb_impl; intros c;
    unfold char_in; simpl; unfold ceqb;
    destruct (Ascii.eqb c "["), (Ascii.eqb c "]"); simpl; auto.
Qed.





Lemma append_empty_r : forall s, (s ++ EmptyString)%string = s.
Proof. induction s as [|c s IH]; simpl; congruence. Qed.








(** * Further properties of the script *)

(** ** Paths, the filesystem and the monad *)
Lemma path_eqb_refl : forall p, path_eqb p p = true.
Proof. induction p as [|x p IH]; simpl; auto. rewrite String.eqb_refl. auto. Qed.

Lemma path_eqb_neq : forall p q, p <> q -> path_eqb p q = false.
Proof.
  intros p q H. destruct (path_eqb p q) eqn:E; auto. apply path_eqb_eq in E. contradiction.
Qed.

Lemma fs_lookup_set : forall m p n q,
  fs_lookup (fs_set m p n) q = if path_eqb p q then Some n else fs_lookup m q.
Proof.
  intros m p n q. unfold fs_set. simpl. destruct (path_eqb p q) eqn:Hpq; auto.
  induction m as [|[r n'] m IH]; simpl; auto.
  destruct (path_eqb r p) eqn:Hrp; simpl.
  - apply path_eqb_eq in Hrp. subst r. rewrite Hpq. exact IH.
  - destruct (path_eqb r q); auto.
Qed.

Lemma fs_lookup_rmtree_outside : forall m d p,
  path_prefix d p = false -> fs_lookup (fs_rmtree m d) p = fs_lookup m p.
Proof.
  induction m as [|[q n] m IH]; intros d p Hp; simpl; auto.
  destruct (path_prefix d q) eqn:Hq; simpl.
  - destruct (path_eqb q p) eqn:Hqp.
    + apply path_eqb_eq in Hqp. subst. congruence.
    + apply IH; auto.
  - destruct (path_eqb q p); auto.
Qed.

Lemma path_prefix_app : forall d x, path_prefix d (d ++ x) = true.
Proof. induction d as [|a d IH]; intros x; simpl; auto. rewrite String.eqb_refl. simpl. apply IH. Qed.

Lemma bind_ok_inv {A B} : forall (m : M A) (f : A -> M B) e w b w',
  bind m f e w = (Ok b, w') ->
  exists a w1, m e w = (Ok a, w1) /\ f a e w1 = (Ok b, w').
Proof.
  intros m f e w b w' H. unfold bind in H.
  destruct (m e w) as [[a|x] w1]; [|discriminate]. eauto.
Qed.

(** ** Probing and navigating locations *)

Lemma str_app_assoc : forall a b c : string, (a ++ b ++ c)%string = ((a ++ b) ++ c)%string.
Proof. induction a as [|x a IH]; intros b c; simpl; congruence. Qed.

Lemma join_cons_string : forall sep x h t,
  join sep (String x h :: t) = String x (join sep (h :: t)).
Proof. intros sep x h [|y t]; reflexivity. Qed.

Lemma join_split : forall s, join "/" (split_on "/" s) = s.
Proof.
  induction s as [|x r IH]; [reflexivity|]. simpl split_on.
  destruct (ceqb x "/") eqn:Hx.
  - apply Ascii.eqb_eq in Hx. subst x.
    destruct (split_on "/" r) as [|h t] eqn:E; [exfalso; exact (split_on_not_nil _ _ E)|].
    change (join "/" (EmptyString :: h :: t)) with ("/" ++ join "/" (h :: t))%string.
    rewrite IH. reflexivity.
  - destruct (split_on "/" r) as [|h t] eqn:E; [exfalso; exact (split_on_not_nil _ _ E)|].
    rewrite join_cons_string, IH. reflexivity.
Qed.

Lemma join_app : forall sep l1 l2, l1 <> [] -> l2 <> [] ->
  join sep (l1 ++ l2) = (join sep l1 ++ sep ++ join sep l2)%string.
Proof.
  intros sep l1 l2 H1 H2. induction l1 as [|x l1 IH]; [contradiction|].
  destruct l1 as [|y l1].
  - simpl. destruct l2; [contradiction|]. reflexivity.
  - change ((x :: y :: l1) ++ l2) with (x :: ((y :: l1) ++ l2)).
    change (join sep (x :: (y :: l1) ++ l2)) with (x ++ sep ++ join sep ((y :: l1) ++ l2))%string.
    rewrite IH by discriminate.
    change (join sep (x :: y :: l1)) with (x ++ sep ++ join sep (y :: l1))%string.
    rewrite <- !str_app_assoc. reflexivity.
Qed.

Lemma navigate_key_form : forall p args,
  key (navigate p args)
  = match args with
    | [] => ("/" ++ key p)%string
    | _ :: _ => ("/" ++ key p ++ "/" ++ join "/" args)%string
    end.
Proof.
  intros p args. unfold navigate. simpl key.
  destruct args as [|a args].
  - rewrite app_nil_r, join_split. reflexivity.
  - rewrite join_app by (try apply split_on_not_nil; discriminate).
    rewrite join_split. reflexivity.
Qed.

(** [S3Path.navigate] keeps the bucket; the new key is ["/"], the old
    key, and, when segments are given, ["/"] and the segments joined by
    ["/"]; navigating twice gives one more leading ["/"] than navigating
    once with both lists of segments. *)
Theorem navigate_appends_segments : forall p args,
  bucket (navigate p args) = bucket p /\
  key (navigate p args)
  = match args with
    | [] => ("/" ++ key p)%string
    | _ :: _ => ("/" ++ key p ++ "/" ++ join "/" args)%string
    end /\
  forall more, navigate (navigate p args) more
               = {| bucket := bucket p; key := ("/" ++ key (navigate p (args ++ more)))%string |}.
Proof.
  intros p args. split; [reflexivity|]. split; [apply navigate_key_form|].
  intros more.
  change (navigate (navigate p args) more)
    with {| bucket := bucket p; key := key (navigate (navigate p args) more) |}.
  f_equal. rewrite !navigate_key_form.
  destruct args as [|a args], more as [|b more]; simpl app;
    rewrite ?navigate_key_form; try reflexivity.
  - rewrite app_nil_r. reflexivity.
  - change (a :: args ++ b :: more) with ((a :: args) ++ (b :: more)).
    rewrite (join_app "/" (a :: args) (b :: more)) by discriminate.
    simpl. rewrite <- !str_app_assoc. reflexivity.
Qed.

(** ** Base names *)
Lemma str_has_app : forall c a b, str_has c (a ++ b) = str_has c a || str_has c b.
Proof. induction a as [|x a IH]; intros b; simpl; auto. rewrite IH, orb_assoc. reflexivity. Qed.

Lemma after_last_acc_spec : forall c s acc,
  str_has c acc = false ->
  str_has c (after_last_acc c acc s) = false /\
  exists d, (acc ++ s)%string = (d ++ after_last_acc c acc s)%string /\
            (d = EmptyString \/ exists d', d = (d' ++ String c EmptyString)%string).
Proof.
  intros c. induction s as [|x s IH]; intros acc Hacc; simpl.
  - split; [exact Hacc|]. exists EmptyString. rewrite append_empty_r. auto.
  - destruct (ceqb x c) eqn:Hx.
    + apply Ascii.eqb_eq in Hx. subst x.
      destruct (IH EmptyString eq_refl) as [Hn (d & Hd & Hform)].
      split; [exact Hn|]. simpl in Hd.
      exists (acc ++ String c d)%string. split.
      * rewrite <- str_app_assoc. simpl. rewrite <- Hd. reflexivity.
      * right. destruct Hform as [->|(d' & ->)].
        -- exists acc. reflexivity.
        -- exists (acc ++ String c d')%string. rewrite <- str_app_assoc. reflexivity.
    + assert (Hacc' : str_has c (acc ++ String x EmptyString) = false).
      { rewrite str_has_app, Hacc. simpl. rewrite Hx. reflexivity. }
      destruct (IH _ Hacc') as [Hn (d & Hd & Hform)].
      split; [exact Hn|]. exists d. split; [|exact Hform].
      rewrite <- Hd, <- str_app_assoc. reflexivity.
Qed.

(** [os.path.basename] (the [base_name] of a location) contains no ["/"],
    and the key is some directory part followed by it, the directory part
    being empty or ending in ["/"]. *)
Theorem basename_last_component : forall s,
  str_has "/" (basename s) = false /\
  exists d, s = (d ++ basename s)%string /\
            (d = EmptyString \/ exists d', d = (d' ++ "/")%string).
Proof.
  intros s. exact (after_last_acc_spec "/" s EmptyString eq_refl).
Qed.

(** ** Iterating the maps *)

(** With a client that has a [paginator] attribute, iterating
    [RuntimeContext.maps] completes exactly when every page of the listing
    has an empty ["Contents"] entry; a page with a non-empty one, the pages
    before it being empty, makes it raise the [TypeError] of
    [from_object], whatever the keys and the loop body. *)
Theorem maps_completes_only_on_empty_pages : forall ctx loc e w (k : S3Path -> M unit),
  map_location ctx = Some loc ->
  has_paginator e = true ->
  (fst (maps ctx k e w) = Ok tt <->
   Forall (fun pg => pg = Ok (Some [])) (list_pages e (bucket loc) (key loc))) /\
  (forall pre ks post,
     list_pages e (bucket loc) (key loc) = pre ++ Ok (Some ks) :: post ->
     Forall (fun pg => pg = Ok (Some [])) pre -> ks <> [] ->
     fst (maps ctx k e w) = Err from_object_type_error).
Proof.
  intros ctx loc e w k Hl Hp.
  assert (E : forall w0, maps ctx k e w0
    = for_each (list_pages e (bucket loc) (key loc))
        (fun pg => emit (EvListPage (bucket loc) (key loc));;
           contents <- lift pg;;
           match contents with
           | None => raise (KeyError "Contents")
           | Some keys => for_each keys (fun kk => obj <- lift (from_object_one_arg kk);; k obj)
           end) e w0).
  { intros w0. unfold maps. rewrite Hl. unfold ls, bind at 1, asks. rewrite Hp. reflexivity. }
  rewrite !E. generalize (list_pages e (bucket loc) (key loc)) as l. clear E Hl Hp. intros l.
  revert w. induction l as [|pg l IH]; intros w; [split; [split; auto|]|].
  - intros pre ks post H. destruct pre; discriminate.
  - simpl for_each. unfold bind at 1 2 3, emit, modify, lift. cbv beta iota.
    destruct (IH (add_event w (EvListPage (bucket loc) (key loc)))) as [IH1 IH2].
    destruct pg as [[[|kk ks]|]|x]; cbv beta iota; simpl for_each.
    + unfold ret. cbv beta iota. split.
      * rewrite IH1. split; [intros H; constructor; auto|intros H; inversion H; auto].
      * intros pre ks post Hpre Hall Hks. destruct pre as [|p0 pre].
        { injection Hpre as Hks' _. congruence. }
        injection Hpre as _ Hpre. inversion Hall; subst. eapply IH2; eauto.
    + unfold bind at 1. simpl. split.
      * split; [discriminate|intros H; inversion H; discriminate].
      * reflexivity.
    + simpl. split.
      * split; [discriminate|intros H; inversion H; discriminate].
      * intros pre ks post Hpre Hall _. destruct pre as [|p0 pre]; [discriminate|].
        injection Hpre as Hp0 _. inversion Hall; subst. discriminate.
    + simpl. split.
      * split; [discriminate|intros H; inversion H; discriminate].
      * intros pre ks post Hpre Hall _. destruct pre as [|p0 pre]; [discriminate|].
        injection Hpre as Hp0 _. inversion Hall; subst. discriminate.
Qed.

(** ** Where the maps phase writes *)
Create HintDb effects.

Section Effects.
Variable e : env.

Lemma keeps_bind {A B} : forall (m : M A) (f : A -> M B),
  keeps_fs m e -> (forall a, keeps_fs (f a) e) -> keeps_fs (bind m f) e.
Proof.
  intros m f Hm Hf w. unfold bind. specialize (Hm w).
  destruct (m e w) as [[a|x] w1]; simpl in *; [rewrite Hf|]; auto.
Qed.

Lemma keeps_try_except {A} : forall (m : M A) h,
  keeps_fs m e -> (forall x, keeps_fs (h x) e) -> keeps_fs (try_except m h) e.
Proof.
  intros m h Hm Hh w. unfold try_except. specialize (Hm w).
  destruct (m e w) as [[a|x] w1]; simpl in *; [|rewrite Hh]; auto.
Qed.

Lemma keeps_ret {A} : forall a : A, keeps_fs (ret a) e.
Proof. intros a w. reflexivity. Qed.
Lemma keeps_raise {A} : forall x, keeps_fs (raise (A:=A) x) e.
Proof. intros x w. reflexivity. Qed.
Lemma keeps_lift {A} : forall r : res A, keeps_fs (lift r) e.
Proof. intros r w. reflexivity. Qed.
Lemma keeps_asks {A} : forall f : env -> A, keeps_fs (asks f) e.
Proof. intros f w. reflexivity. Qed.
Lemma keeps_gets {A} : forall f : world -> A, keeps_fs (gets f) e.
Proof. intros f w. reflexivity. Qed.
Lemma keeps_emit : forall ev, keeps_fs (emit ev) e.
Proof. intros ev w. reflexivity. Qed.
Lemma keeps_print : forall l, keeps_fs (print l) e.
Proof. intros l w. reflexivity. Qed.

Hint Resolve keeps_bind keeps_try_except keeps_ret keeps_raise keeps_lift keeps_asks
  keeps_gets keeps_emit keeps_print : effects.

Lemma keeps_head_object : forall p, keeps_fs (head_object p) e.
Proof.
  intros p. unfold head_object. apply keeps_bind; auto with effects. intros _.
  apply keeps_bind; auto with effects. intros [x|]; auto with effects.
Qed.

Lemma keeps_is_object : forall p, keeps_fs (is_object p) e.
Proof.
  intros p. unfold is_object. apply keeps_try_except.
  - apply keeps_bind; [apply keeps_head_object|auto with effects].
  - intros []; auto with effects.
Qed.

Lemma keeps_json_load : forall b, keeps_fs (json_load b) e.
Proof.
  intros b. unfold json_load. apply keeps_bind; auto with effects.
  intros parse. destruct (parse b); auto with effects.
Qed.

Lemma keeps_load_json : forall p, keeps_fs (load_json p) e.
Proof.
  intros p. unfold load_json.
  apply keeps_bind; [auto with effects|intros _].
  apply keeps_bind; [auto with effects|intros r].
  apply keeps_bind; [auto with effects|intros b]. apply keeps_json_load.
Qed.

Lemma keeps_open_rb : forall p, keeps_fs (open_rb p) e.
Proof.
  intros p. unfold open_rb. apply keeps_bind; auto with effects.
  intros m. destruct (fs_lookup m p) as [[b|]|]; auto with effects.
Qed.

Lemma keeps_copy_bz2 : forall b, keeps_fs (copy_bz2_to_read_handle b) e.
Proof.
  intros b. unfold copy_bz2_to_read_handle. apply keeps_bind; auto with effects.
  intros dec. destruct (dec b) as [[|? ?] [x|]]; auto with effects.
Qed.

Lemma stays_of_keeps {A} : forall td (m : M A), keeps_fs m e -> stays_in td m e.
Proof. intros td m H w p _. rewrite H. reflexivity. Qed.

Lemma stays_bind {A B} : forall td (m : M A) (f : A -> M B),
  stays_in td m e -> (forall a, stays_in td (f a) e) -> stays_in td (bind m f) e.
Proof.
  intros td m f Hm Hf w p Hp. unfold bind. specialize (Hm w p Hp).
  destruct (m e w) as [[a|x] w1]; simpl in *; auto.
  rewrite (Hf a w1 p Hp). exact Hm.
Qed.

Lemma stays_set_node : forall td p n,
  path_prefix td p = true -> stays_in td (set_node p n) e.
Proof.
  intros td p n Hp w q Hq.
  change (fs (snd (set_node p n e w))) with (fs_set (fs w) p n). rewrite fs_lookup_set.
  destruct (path_eqb p q) eqn:E; auto.
  apply path_eqb_eq in E. subst. congruence.
Qed.

Lemma stays_for_each {A} : forall td (l : list A) k,
  (forall a, stays_in td (k a) e) -> stays_in td (for_each l k) e.
Proof.
  intros td l k Hk. induction l as [|a l IH]; simpl.
  - apply stays_of_keeps, keeps_ret.
  - apply stays_bind; auto.
Qed.

Lemma stays_open_wb : forall td p, path_prefix td p = true -> stays_in td (open_wb p) e.
Proof.
  intros td p Hp. unfold open_wb. apply stays_bind; [apply stays_of_keeps; auto with effects|].
  intros m. destruct (walk_dirs m [] p p) as [x|]; [apply stays_of_keeps; auto with effects|].
  destruct (dir_exists m p); [apply stays_of_keeps; auto with effects|].
  apply stays_bind; [apply stays_set_node; exact Hp|intros _].
  apply stays_of_keeps; auto with effects.
Qed.

Lemma stays_get : forall td obj p, path_prefix td p = true -> stays_in td (get obj p) e.
Proof.
  intros td obj p Hp. unfold get.
  apply stays_bind; [apply stays_of_keeps; auto with effects|intros _].
  apply stays_bind; [apply stays_of_keeps; auto with effects|intros r].
  unfold write_file. destruct r as [b|x].
  - apply stays_bind; [apply stays_set_node; exact Hp|intros _].
    apply stays_of_keeps; auto with effects.
  - apply stays_bind; [apply stays_of_keeps; auto with effects|intros part].
    apply stays_bind; [|intros _; apply stays_of_keeps; auto with effects].
    apply stays_bind; [apply stays_set_node; exact Hp|intros _].
    apply stays_of_keeps; auto with effects.
Qed.

End Effects.

Lemma starts_with_slash_has : forall s, starts_with "/" s = true -> str_has "/" s = true.
Proof.
  intros [|c s] H; [discriminate|].
  change (ceqb "/" c && true = true) in H. rewrite andb_true_r in H.
  simpl. unfold ceqb in *. rewrite Ascii.eqb_sym, H. reflexivity.
Qed.

Lemma pdiv_basename_below : forall td s, path_prefix td (pdiv td (basename s)) = true.
Proof.
  intros td s. unfold pdiv.
  destruct (starts_with "/" (basename s)) eqn:E.
  - apply starts_with_slash_has in E.
    unfold basename, after_last in E.
    rewrite (proj1 (after_last_acc_spec "/" s EmptyString eq_refl)) in E. discriminate.
  - apply path_prefix_app.
Qed.

Lemma stays_download_map : forall e ctx td obj,
  stays_in td (download_map ctx td obj) e.
Proof.
  intros e ctx td obj. unfold download_map. unfold base_name.
  pose proof (pdiv_basename_below td (key obj)) as Hb.
  apply stays_bind; [apply stays_open_wb; exact Hb|intros _].
  apply stays_bind; [apply stays_get; exact Hb|intros _].
  apply stays_bind; [apply stays_of_keeps, keeps_open_rb|intros compressed].
  apply stays_bind; [apply stays_of_keeps, keeps_open_rb|intros _].
  apply stays_of_keeps, keeps_copy_bz2.
Qed.

Lemma stays_maps : forall e ctx td k,
  (forall obj, stays_in td (k obj) e) -> stays_in td (maps ctx k) e.
Proof.
  intros e ctx td k Hk. unfold maps. destruct (map_location ctx) as [l|];
    [|apply stays_of_keeps, keeps_raise].
  unfold ls. apply stays_bind; [apply stays_of_keeps, keeps_asks|intros hp].
  destruct (negb hp); [apply stays_of_keeps, keeps_raise|].
  apply stays_bind; [apply stays_of_keeps, keeps_asks|intros pages].
  apply stays_for_each. intros pg.
  apply stays_bind; [apply stays_of_keeps, keeps_emit|intros _].
  apply stays_bind; [apply stays_of_keeps, keeps_lift|intros contents].
  destruct contents as [keys|]; [|apply stays_of_keeps, keeps_raise].
  apply stays_for_each. intros kk.
  apply stays_bind; [apply stays_of_keeps, keeps_lift|intros obj].
  destruct (ends_with ".bsp.bz2" (key obj)); auto.
  apply stays_of_keeps, keeps_ret.
Qed.

Lemma mkdtemp_from_effect : forall e fuel n w,
  match mkdtemp_from fuel n e w with
  | (Ok d, w1) => fs w1 = fs_set (fs w) d Dir /\ log w1 = log w ++ [EvMkdtemp d]
  | (Err _, w1) => w1 = w
  end.
Proof.
  intros e. induction fuel as [|f IH]; intros n w; [reflexivity|].
  simpl. unfold bind, asks, gets. simpl.
  destruct (dir_exists (fs w) (tmp_root e)); simpl; [|reflexivity].
  destruct (fs_lookup (fs w) (tmp_root e ++ [tmp_name e n])); [apply IH|].
  simpl. split; reflexivity.
Qed.

Lemma mkdtemp_effect : forall e w,
  match mkdtemp e w with
  | (Ok d, w1) => fs w1 = fs_set (fs w) d Dir /\ log w1 = log w ++ [EvMkdtemp d]
  | (Err _, w1) => w1 = w
  end.
Proof.
  intros e w. unfold mkdtemp, bind at 1 2, gets, asks. simpl. apply mkdtemp_from_effect.
Qed.

(** Once [mkdtemp] has created the scratch directory, the maps phase leaves
    every path outside it exactly as it found it, whatever the listing and
    the client do: in particular it never creates or changes a file of the
    maps directory. When [mkdtemp] fails, nothing changes. *)
Theorem download_maps_confined_to_scratch : forall ctx e w,
  match mkdtemp e w with
  | (Ok td, _) =>
      forall p, path_prefix td p = false ->
        fs_lookup (fs (snd (download_maps ctx e w))) p = fs_lookup (fs w) p
  | (Err x, _) => download_maps ctx e w = (Err x, w)
  end.
Proof.
  intros ctx e w. pose proof (mkdtemp_effect e w) as Hmk.
  destruct (mkdtemp e w) as [[td|x] w1] eqn:E;
    unfold download_maps, with_temporary_directory, bind at 1; rewrite E;
    [|subst w1; reflexivity].
  destruct Hmk as [Hfs _].
  intros p Hp. unfold try_finally.
  pose proof (stays_maps e ctx td (download_map ctx td)
                (stays_download_map e ctx td) w1 p Hp) as Hbody.
  destruct (maps ctx (download_map ctx td) e w1) as [r w2]. simpl in Hbody.
  unfold rmtree, bind, modify, emit, add_event. simpl.
  rewrite fs_lookup_rmtree_outside by exact Hp. rewrite Hbody, Hfs, fs_lookup_set.
  destruct (path_eqb td p) eqn:Etd; auto.
  apply path_eqb_eq in Etd. subst. pose proof (path_prefix_app p []) as Hpp. rewrite app_nil_r in Hpp. congruence.
Qed.

(** ** The maps phase with boto3's client *)

(** With a client that has no [paginator] attribute (boto3's S3 client has
    only [get_paginator]), the maps phase raises [AttributeError]; the only
    actions are creating and removing the scratch directory, with no remote
    call. *)
Theorem download_maps_without_paginator : forall ctx loc e w,
  map_location ctx = Some loc ->
  has_paginator e = false ->
  match mkdtemp e w with
  | (Ok td, w1) =>
      fst (download_maps ctx e w) = Err (AttributeError "paginator") /\
      log (snd (download_maps ctx e w)) = log w ++ [EvMkdtemp td; EvRmtree td]
  | (Err x, _) => download_maps ctx e w = (Err x, w)
  end.
Proof.
  intros ctx loc e w Hl Hp. pose proof (mkdtemp_effect e w) as Hmk.
  destruct (mkdtemp e w) as [[td|x] w1] eqn:E.
  - destruct Hmk as [_ Hlog].
    assert (Hd : download_maps ctx e w
                 = (Err (AttributeError "paginator"),
                    add_event {| fs := fs_rmtree (fs w1) td; log := log w1;
                                 stdout := stdout w1; tmp_counter := tmp_counter w1 |}
                      (EvRmtree td))).
    { unfold download_maps, with_temporary_directory, bind at 1. rewrite E.
      unfold try_finally, maps. rewrite Hl. unfold ls, bind at 1, asks. rewrite Hp.
      reflexivity. }
    rewrite Hd. simpl. rewrite Hlog, <- app_assoc. split; reflexivity.
  - subst w1. unfold download_maps, with_temporary_directory, bind at 1. rewrite E.
    reflexivity.
Qed.

(** ** Downloading one map *)
Lemma open_wb_ok : forall p e w u w1,
  open_wb p e w = (Ok u, w1) -> fs w1 = fs_set (fs w) p (File []).
Proof.
  intros p e w u w1. unfold open_wb, set_node, gets, bind, emit, modify, add_event, raise.
  cbn [fst snd fs].
  destruct (walk_dirs (fs w) [] p p); [discriminate|].
  destruct (dir_exists (fs w) p); [discriminate|].
  intros H; injection H as _ <-; reflexivity.
Qed.

Lemma get_ok : forall obj p e w u w1,
  get obj p e w = (Ok u, w1) ->
  exists b, fetch e (bucket obj) (key obj) = Ok b /\ fs w1 = fs_set (fs w) p (File b).
Proof.
  intros obj p e w u w1. unfold get, write_file, set_node, bind, emit, modify, add_event,
    asks, lift. cbn [fst snd fs].
  destruct (fetch e (bucket obj) (key obj)) as [b|x]; [|simpl; discriminate].
  intros H; injection H as _ <-. eauto.
Qed.

Lemma open_rb_ok : forall p e w b w1,
  open_rb p e w = (Ok b, w1) -> fs_lookup (fs w) p = Some (File b) /\ fs w1 = fs w.
Proof.
  intros p e w b w1. unfold open_rb, gets, bind, emit, modify, add_event, ret, raise.
  cbn [fst snd fs].
  destruct (fs_lookup (fs w) p) as [[b0|]|]; try discriminate.
  intros H; injection H as <- <-. auto.
Qed.

Lemma copy_bz2_ok : forall b e w u w1,
  copy_bz2_to_read_handle b e w = (Ok u, w1) -> bz2_decompress e b = ([], None) /\ w1 = w.
Proof.
  intros b e w u w1. unfold copy_bz2_to_read_handle, bind, asks, ret, raise.
  destruct (bz2_decompress e b) as [[|c cs] [x|]]; try discriminate.
  intros H; injection H as _ <-. auto.
Qed.

(** [download_map] completes only when the object downloads and its
    payload decompresses to an empty stream (the destination is opened for
    reading, so a non-empty copy raises); then the scratch file holds the
    downloaded bytes and no other path has changed. *)
Theorem download_map_completes_only_on_empty_payload : forall ctx td obj e w u w',
  download_map ctx td obj e w = (Ok u, w') ->
  exists b,
    fetch e (bucket obj) (key obj) = Ok b /\
    bz2_decompress e b = ([], None) /\
    fs_lookup (fs w') (pdiv td (base_name obj)) = Some (File b) /\
    forall p, p <> pdiv td (base_name obj) -> fs_lookup (fs w') p = fs_lookup (fs w) p.
Proof.
  intros ctx td obj e w u w' H. unfold download_map in H.
  set (t := pdiv td (base_name obj)) in *. clearbody t.
  apply bind_ok_inv in H as (u1 & w1 & H1 & H).
  apply bind_ok_inv in H as (u2 & w2 & H2 & H).
  apply bind_ok_inv in H as (c & w3 & H3 & H).
  apply bind_ok_inv in H as (c' & w4 & H4 & H5).
  apply open_wb_ok in H1. destruct (get_ok _ _ _ _ _ _ H2) as (b & Hf & Hw2).
  apply open_rb_ok in H3 as [Hc Hw3]. apply open_rb_ok in H4 as [_ Hw4].
  apply copy_bz2_ok in H5 as [Hd ->].
  rewrite Hw2, fs_lookup_set, path_eqb_refl in Hc. injection Hc as <-.
  exists b. split; [exact Hf|]. split; [exact Hd|].
  rewrite Hw4, Hw3, Hw2, fs_lookup_set, path_eqb_refl. split; [reflexivity|].
  intros p Hp. rewrite fs_lookup_set, (path_eqb_neq t p) by congruence.
  rewrite H1, fs_lookup_set, (path_eqb_neq t p) by congruence. reflexivity.
Qed.

(** ** Configuration files *)

(** Resolving the manifest never changes the local filesystem, whatever
    its outcome. *)
Theorem config_manifest_reads_only : forall ctx e w,
  fs (snd (config_manifest ctx e w)) = fs w.
Proof.
  intros ctx e. unfold config_manifest. destruct (config_location ctx) as [cfg|];
    [|intros w; reflexivity].
  apply keeps_bind; [apply keeps_is_object|intros ex].
  destruct ex; [apply keeps_load_json|].
  apply keeps_bind; [apply keeps_open_rb|intros b]. apply keeps_json_load.
Qed.

Lemma dir_exists_snoc : forall m q d,
  dir_exists m (q ++ [d]) = true -> fs_lookup m (q ++ [d]) = Some Dir.
Proof.
  intros m q d. unfold dir_exists.
  assert (Hne : q ++ [d] <> []) by (destruct q; discriminate).
  destruct (q ++ [d]) as [|x l]; [congruence|].
  destruct (fs_lookup m _) as [[]|]; congruence.
Qed.



(** Every proper ancestor a directory: the resolution passes. *)
Lemma walk_dirs_ancestors : forall m rest seen t,
  (forall n, n < length rest -> dir_exists m (seen ++ firstn n rest) = true) ->
  walk_dirs m seen rest t = None.
Proof.
  intros m rest. induction rest as [|d rest IH]; intros seen t H; [reflexivity|].
  destruct rest as [|d2 rest]; [reflexivity|].
  simpl. rewrite dir_exists_snoc by exact (H 1 ltac:(simpl; lia)).
  apply IH. intros n Hn. rewrite <- app_assoc. exact (H (S n) ltac:(simpl in *; lia)).
Qed.


Lemma open_wb_run : forall p e w,
  (forall n, n < length p -> dir_exists (fs w) (firstn n p) = true) ->
  dir_exists (fs w) p = false ->
  fst (open_wb p e w) = Ok tt /\ fs (snd (open_wb p e w)) = fs_set (fs w) p (File []).
Proof.
  intros p e w Hanc Hnd. unfold open_wb, set_node, gets, bind, emit, modify, raise.
  cbn [fst snd fs].
  rewrite (walk_dirs_ancestors (fs w) p [] p Hanc), Hnd. split; reflexivity.
Qed.

Lemma get_run : forall obj p e w,
  fst (get obj p e w)
    = match fetch e (bucket obj) (key obj) with Ok _ => Ok tt | Err x => Err x end /\
  fs (snd (get obj p e w))
    = match fetch e (bucket obj) (key obj) with
      | Ok b => fs_set (fs w) p (File b)
      | Err _ => fs_set (fs w) p (File (partial_download e (bucket obj) (key obj)))
      end.
Proof.
  intros obj p e w. unfold get, write_file, set_node, bind, emit, modify, add_event,
    asks, lift, raise. cbn [fst snd fs].
  destruct (fetch e (bucket obj) (key obj)); split; reflexivity.
Qed.

(** When every proper ancestor of the target is a directory and the
    target is not one, [download_configuration_file] truncates the target
    before downloading: if the download succeeds the target holds exactly
    the object's bytes; if it raises, the exception propagates and the
    target keeps what the transfer wrote before failing. No other path
    changes. *)
Theorem download_configuration_file_effects : forall ctx cfg f d e w,
  config_location ctx = Some cfg ->
  (forall n, n < length (config_target ctx f d) ->
     dir_exists (fs w) (firstn n (config_target ctx f d)) = true) ->
  dir_exists (fs w) (config_target ctx f d) = false ->
  let src := navigate cfg [f] in
  match download_configuration_file ctx f d e w with
  | (r, w') =>
      r = match fetch e (bucket src) (key src) with Ok _ => Ok tt | Err x => Err x end /\
      fs_lookup (fs w') (config_target ctx f d)
        = Some (File (match fetch e (bucket src) (key src) with
                      | Ok b => b
                      | Err _ => partial_download e (bucket src) (key src)
                      end)) /\
      forall p, p <> config_target ctx f d -> fs_lookup (fs w') p = fs_lookup (fs w) p
  end.
Proof.
  intros ctx cfg f d e w Hc Hanc Hnd src.
  unfold download_configuration_file. rewrite Hc. fold src.
  set (t := config_target ctx f d) in *. clearbody t src.
  destruct (open_wb_run t e w Hanc Hnd) as [Hr1 Hfs1].
  unfold bind at 1. destruct (open_wb t e w) as [r1 w1]. simpl in Hr1, Hfs1. subst r1.
  destruct (get_run src t e w1) as [Hr2 Hfs2].
  destruct (get src t e w1) as [r2 w2]. simpl in Hr2, Hfs2. subst r2.
  rewrite Hfs2. destruct (fetch e (bucket src) (key src)) as [b|x];
    rewrite ?fs_lookup_set, ?Hfs1, ?fs_lookup_set, path_eqb_refl;
    (split; [reflexivity|]); (split; [reflexivity|]);
    intros p Hp; rewrite ?fs_lookup_set, ?Hfs1, ?fs_lookup_set, (path_eqb_neq t p) by congruence;
    reflexivity.
Qed.

(** ** [main] *)

(** A run whose two arguments parse to absence prints exactly the opening
    line, the two skip messages and the success line, returns 0, and
    changes nothing else. *)
Theorem main_without_sources_output : forall e w ms cs,
  from_url ms = Ok None -> from_url cs = Ok None ->
  main ms cs e w
  = (Ok 0, {| fs := fs w; log := log w;
              stdout := stdout w ++
                ["Beginning server configuration...";
                 "Skipping custom map download - no map repository provided";
                 "Skipping dynamic configuration - no configuration repository provided";
                 "Server configuration successful - starting SRCDS..."];
              tmp_counter := tmp_counter w |}).
Proof.
  intros e w ms cs Hm Hc.
  unfold main, parse_args, from_urls, maps_phase, config_phase, print, modify,
    lift, asks, ret, bind.
  rewrite Hm, Hc. simpl. rewrite <- !app_assoc. reflexivity.
Qed.

(** A manifest entry whose directory is an absolute path is written at
    that path whatever the working directory: the target, and the whole
    download, do not depend on it. *)
Theorem config_target_absolute_directory : forall ctx ctx' f d,
  starts_with "/" d = true ->
  config_location ctx = config_location ctx' ->
  config_target ctx f d = config_target ctx' f d /\
  forall e w, download_configuration_file ctx f d e w = download_configuration_file ctx' f d e w.
Proof.
  intros ctx ctx' f d Hd Hc.
  assert (Ht : config_target ctx f d = config_target ctx' f d).
  { unfold config_target, pdiv at 2 4. rewrite Hd. reflexivity. }
  split; [exact Ht|]. intros e w.
  unfold download_configuration_file. rewrite Hc, Ht. reflexivity.
Qed.

(** ** Addresses with a query, a fragment or no authority *)
Lemma remove_unsafe_app : forall a b,
  remove_unsafe (a ++ b) = (remove_unsafe a ++ remove_unsafe b)%string.
Proof. induction a as [|c a IH]; intros b; simpl; auto. destruct (is_unsafe c); simpl; f_equal; auto. Qed.

Lemma split_once_app_absent : forall ch a s,
  str_forallb (fun c => negb (ceqb c ch)) a = true ->
  split_once ch (a ++ s)
  = match split_once ch s with Some (x, y) => Some ((a ++ x)%string, y) | None => None end.
Proof.
  intros ch a s. induction a as [|c a IH]; simpl; intros H.
  - destruct (split_once ch s) as [[x y]|]; reflexivity.
  - apply andb_true_iff in H as [H1 H2]. apply negb_true_iff in H1. rewrite H1, IH by exact H2.
    destruct (split_once ch s) as [[x y]|]; reflexivity.
Qed.

Lemma key_char_no : forall k ch, ch = "?"%char \/ ch = "#"%char ->
  str_forallb key_char k = true -> str_forallb (fun c => negb (ceqb c ch)) k = true.
Proof.
  intros k ch Hch. apply str_forallb_impl. intros c. unfold key_char, char_in. simpl.
  unfold ceqb. destruct Hch as [->| ->];
    destruct (Ascii.eqb c "?"), (Ascii.eqb c "#"); simpl; auto.
Qed.

(** The path [urlsplit] reads off the text after the authority. *)
Lemma urlsplit_path_tail : forall k rest,
  str_forallb key_char k = true ->
  (rest = EmptyString \/ exists c r, rest = String c r /\ (c = "?"%char \/ c = "#"%char)) ->
  (let (url4, frag) := match split_once "#" (k ++ rest) with
                       | Some (a, b) => (a, b)
                       | None => ((k ++ rest)%string, EmptyString)
                       end in
   let (pth, q) := match split_once "?" url4 with
                   | Some (a, b) => (a, b)
                   | None => (url4, EmptyString)
                   end in pth) = k.
Proof.
  intros k rest Hk Hr.
  pose proof (key_char_no k "#" (or_intror eq_refl) Hk) as Hh.
  pose proof (key_char_no k "?" (or_introl eq_refl) Hk) as Hq.
  rewrite (split_once_app_absent "#" k rest Hh).
  destruct Hr as [->|(c & r & -> & [-> | ->])].
  - simpl. rewrite append_empty_r, (split_once_absent "?" k Hq). reflexivity.
  - change (split_once "#" (String "?" r))
      with (match split_once "#" r with
            | Some (a, b) => Some (String "?" a, b) | None => None end).
    destruct (split_once "#" r) as [[x y]|];
      rewrite (split_once_app_absent "?" k _ Hq); simpl; rewrite append_empty_r; reflexivity.
  - simpl. rewrite append_empty_r, (split_once_absent "?" k Hq). reflexivity.
Qed.

(** An address [s3://container/key] followed by a query or a fragment
    parses to the same container and key as without them: the query and
    the fragment are dropped; the scheme may be written [s3] or [S3]. *)
Theorem from_url_drops_query_and_fragment : forall sch b k rest,
  (sch = "s3" \/ sch = "S3") ->
  str_forallb bucket_char b = true ->
  (k = EmptyString \/ starts_with "/" k = true) ->
  str_forallb key_char k = true ->
  (rest = EmptyString \/ exists c r, rest = String c r /\ (c = "?"%char \/ c = "#"%char)) ->
  from_url (sch ++ "://" ++ b ++ k ++ rest)%string = Ok (Some {| bucket := b; key := k |}).
Proof.
  intros sch b k rest Hsch Hb Hk Hkc Hr.
  set (rest' := remove_unsafe rest).
  assert (Hr' : rest' = EmptyString \/
                exists c r, rest' = String c r /\ (c = "?"%char \/ c = "#"%char)).
  { unfold rest'. destruct Hr as [->|(c & r & -> & Hc)]; [left; reflexivity|right].
    simpl. destruct Hc as [-> | ->]; simpl; eauto. }
  assert (Hsafe : str_forallb (fun c => negb (is_unsafe c)) (b ++ k)%string = true).
  { rewrite str_forallb_app. apply andb_true_iff. split.
    - revert Hb. apply str_forallb_impl. intros c. unfold bucket_char.
      rewrite andb_true_iff. tauto.
    - revert Hkc. apply str_forallb_impl. intros c. unfold key_char.
      rewrite andb_true_iff. tauto. }
  assert (Hu : remove_unsafe (lstrip_c0 (sch ++ "://" ++ b ++ k ++ rest))
               = (sch ++ "://" ++ b ++ k ++ rest')%string).
  { destruct Hsch as [-> | ->]; simpl;
      rewrite (str_app_assoc b k rest), remove_unsafe_app, (remove_unsafe_id (b ++ k) Hsafe),
        <- str_app_assoc; reflexivity. }
  assert (Hs : split_scheme (sch ++ "://" ++ b ++ k ++ rest')
               = ("s3", ("//" ++ b ++ k ++ rest')%string)).
  { destruct Hsch as [-> | ->]; reflexivity. }
  assert (Hsub : substring 2 (String.length ("//" ++ b ++ k ++ rest') - 2)
                   ("//" ++ b ++ k ++ rest') = (b ++ k ++ rest')%string).
  { simpl. rewrite Nat.sub_0_r. apply substring_all. }
  assert (Htail : split_first netloc_delim (k ++ rest') = (EmptyString, (k ++ rest')%string)).
  { destruct Hk as [->|Hk].
    - destruct Hr' as [->|(c & r & -> & [-> | ->])]; reflexivity.
    - destruct k as [|c k']; [discriminate Hk|].
      change (ceqb "/" c && starts_with "" k' = true) in Hk.
      apply andb_true_iff in Hk as [Hc _]. apply Ascii.eqb_eq in Hc. subst c. reflexivity. }
  assert (Hsplit : split_first netloc_delim (b ++ k ++ rest') = (b, (k ++ rest')%string)).
  { rewrite split_first_app, Htail.
    - simpl. rewrite append_empty_r. reflexivity.
    - revert Hb. apply str_forallb_impl. intros c. unfold bucket_char, netloc_delim, char_in.
      simpl. unfold ceqb.
      destruct (Ascii.eqb c "/"), (Ascii.eqb c "?"), (Ascii.eqb c "#"); simpl; auto. }
  assert (Hnl : netloc_ok b = Ok tt).
  { apply netloc_ok_no_brackets. revert Hb. apply str_forallb_impl.
    intros c. unfold bucket_char, char_in. simpl. unfold ceqb.
    destruct (Ascii.eqb c "/"), (Ascii.eqb c "?"), (Ascii.eqb c "#"),
      (Ascii.eqb c "["), (Ascii.eqb c "]"); simpl; auto. }
  pose proof (urlsplit_path_tail k rest' Hkc Hr') as Hpath.
  unfold from_url, urlsplit. rewrite Hu, Hs. cbv beta iota.
  change (starts_with "//" ("//" ++ b ++ k ++ rest')) with true. cbv iota.
  rewrite Hsub, Hsplit. cbv beta iota. rewrite Hnl. cbv iota.
  destruct (split_once "#" (k ++ rest')) as [[a f]|];
    [destruct (split_once "?" a) as [[a' q]|] | destruct (split_once "?" (k ++ rest')) as [[a' q]|]];
    simpl in Hpath |- *; first [rewrite Hpath; reflexivity | subst; reflexivity].
Qed.

(** An [s3:] address without ["//"] is accepted, with an empty container
    and the rest of the address as key. *)
Theorem from_url_without_authority : forall k,
  str_forallb key_char k = true ->
  starts_with "//" k = false ->
  from_url ("s3:" ++ k)%string = Ok (Some {| bucket := EmptyString; key := k |}).
Proof.
  intros k Hkc Hk.
  assert (Hsafe : str_forallb (fun c => negb (is_unsafe c)) k = true).
  { revert Hkc. apply str_forallb_impl. intros c. unfold key_char.
    rewrite andb_true_iff. tauto. }
  unfold from_url, urlsplit.
  change (lstrip_c0 ("s3:" ++ k)) with ("s3:" ++ k)%string.
  change (remove_unsafe ("s3:" ++ k)) with ("s3:" ++ remove_unsafe k)%string.
  rewrite (remove_unsafe_id k Hsafe).
  change (split_scheme ("s3:" ++ k)) with ("s3", k). cbv beta iota.
  rewrite Hk. cbv iota.
  change (netloc_ok EmptyString) with (Ok (A:=unit) tt). cbv iota.
  rewrite (split_once_absent "#" k (key_char_no k "#" (or_intror eq_refl) Hkc)).
  rewrite (split_once_absent "?" k (key_char_no k "?" (or_introl eq_refl) Hkc)).
  reflexivity.
Qed.

(** ** Concrete runs of the properties above *)
Lemma maps_completes_only_on_empty_pages_witness :
  map_location ex_ctx = Some ex_maps_loc /\ has_paginator (ex_env true None) = true /\
  list_pages (ex_env true None) "fastdl" "/gmod/maps" = [] ++ Ok (Some ex_map_keys) :: [] /\
  fst (maps ex_ctx (fun _ => ret tt) (ex_env true None) ex_world) = Err from_object_type_error.
Proof.
  split; [reflexivity|]. split; [reflexivity|]. split; [reflexivity|].
  destruct (maps_completes_only_on_empty_pages ex_ctx ex_maps_loc (ex_env true None) ex_world
              (fun _ => ret tt) eq_refl eq_refl) as [_ H].
  exact (H [] ex_map_keys [] eq_refl (Forall_nil _) ltac:(discriminate)).
Defined.

Lemma download_maps_without_paginator_witness :
  map_location ex_ctx = Some ex_maps_loc /\ has_paginator (ex_env false None) = false /\
  fst (download_maps ex_ctx (ex_env false None) ex_world) = Err (AttributeError "paginator") /\
  log (snd (download_maps ex_ctx (ex_env false None) ex_world))
  = [EvMkdtemp ["tmp"; "tmpa1b2"]; EvRmtree ["tmp"; "tmpa1b2"]].
Proof.
  split; [reflexivity|]. split; [reflexivity|].
  pose proof (download_maps_without_paginator ex_ctx ex_maps_loc (ex_env false None) ex_world
                eq_refl eq_refl) as H.
  revert H. destruct (mkdtemp (ex_env false None) ex_world) as [[td|x] w1] eqn:E.
  - vm_compute in E. injection E as <- _. intros H. exact H.
  - vm_compute in E. discriminate E.
Defined.

Lemma download_map_completes_only_on_empty_payload_witness :
  download_map ex_ctx ["tmp"] {| bucket := "fastdl"; key := "/gmod/maps/a.bsp.bz2" |}
    ex_env_empty_payload ex_world_stale
  = (Ok tt, snd (download_map ex_ctx ["tmp"] {| bucket := "fastdl"; key := "/gmod/maps/a.bsp.bz2" |}
                   ex_env_empty_payload ex_world_stale)) /\
  exists b,
    fetch ex_env_empty_payload "fastdl" "/gmod/maps/a.bsp.bz2" = Ok b /\
    bz2_decompress ex_env_empty_payload b = ([], None) /\
    fs_lookup (fs (snd (download_map ex_ctx ["tmp"]
                          {| bucket := "fastdl"; key := "/gmod/maps/a.bsp.bz2" |}
                          ex_env_empty_payload ex_world_stale)))
      ["tmp"; "a.bsp.bz2"] = Some (File b) /\
    forall p, p <> ["tmp"; "a.bsp.bz2"] ->
      fs_lookup (fs (snd (download_map ex_ctx ["tmp"]
                            {| bucket := "fastdl"; key := "/gmod/maps/a.bsp.bz2" |}
                            ex_env_empty_payload ex_world_stale))) p
      = fs_lookup (fs ex_world_stale) p.
Proof.
  split; [vm_compute; reflexivity|].
  exact (download_map_completes_only_on_empty_payload ex_ctx ["tmp"]
           {| bucket := "fastdl"; key := "/gmod/maps/a.bsp.bz2" |}
           ex_env_empty_payload ex_world_stale tt _ (ltac:(vm_compute; reflexivity))).
Defined.


Lemma download_configuration_file_effects_witness :
  (forall n, n < 3 -> dir_exists (fs ex_world) (firstn n ["srv"; "cfg"; "server.cfg"]) = true) /\
  dir_exists (fs ex_world) ["srv"; "cfg"; "server.cfg"] = false /\
  match download_configuration_file ex_ctx "server.cfg" "cfg" ex_env_interrupted ex_world with
  | (r, w') =>
      r = Err (BotoCoreError "ReadTimeoutError") /\
      fs_lookup (fs w') ["srv"; "cfg"; "server.cfg"] = Some (File [Byte.x41]) /\
      forall p, p <> ["srv"; "cfg"; "server.cfg"] -> fs_lookup (fs w') p = fs_lookup (fs ex_world) p
  end.
Proof.
  assert (Hanc : forall n, n < 3 ->
            dir_exists (fs ex_world) (firstn n ["srv"; "cfg"; "server.cfg"]) = true).
  { intros [|[|[|n]]] Hn; try reflexivity. lia. }
  split; [exact Hanc|]. split; [reflexivity|].
  exact (download_configuration_file_effects ex_ctx ex_cfg "server.cfg" "cfg" ex_env_interrupted
           ex_world eq_refl Hanc eq_refl).
Defined.

Lemma main_without_sources_output_witness :
  from_url "" = Ok None /\ from_url "http://fastdl/gmod/maps" = Ok None /\
  main "http://fastdl/gmod/maps" "" (ex_env true None) ex_world
  = (Ok 0, {| fs := fs ex_world; log := log ex_world;
              stdout := stdout ex_world ++
                ["Beginning server configuration...";
                 "Skipping custom map download - no map repository provided";
                 "Skipping dynamic configuration - no configuration repository provided";
                 "Server configuration successful - starting SRCDS..."];
              tmp_counter := tmp_counter ex_world |}).
Proof.
  split; [reflexivity|]. split; [reflexivity|].
  apply main_without_sources_output; reflexivity.
Defined.

Lemma config_target_absolute_directory_witness :
  starts_with "/" "/etc" = true /\
  config_target ex_ctx "passwd" "/etc" = ["etc"; "passwd"] /\
  config_target ex_ctx "passwd" "/etc"
  = config_target {| map_location := None; config_location := Some ex_cfg;
                     working_dir := ["home"; "steam"]; home_dir := ["root"] |} "passwd" "/etc".
Proof.
  split; [reflexivity|]. split; [reflexivity|].
  exact (proj1 (config_target_absolute_directory ex_ctx
                  {| map_location := None; config_location := Some ex_cfg;
                     working_dir := ["home"; "steam"]; home_dir := ["root"] |}
                  "passwd" "/etc" eq_refl eq_refl)).
Defined.

Lemma from_url_drops_query_and_fragment_witness :
  from_url "s3://fastdl/gmod/maps?versionId=7#top"
  = Ok (Some {| bucket := "fastdl"; key := "/gmod/maps" |}) /\
  from_url "S3://fastdl/gmod/maps"
  = Ok (Some {| bucket := "fastdl"; key := "/gmod/maps" |}).
Proof.
  split.
  - exact (from_url_drops_query_and_fragment "s3" "fastdl" "/gmod/maps" "?versionId=7#top"
             (or_introl eq_refl) eq_refl (or_intror eq_refl) eq_refl
             (or_intror (ex_intro _ "?"%char (ex_intro _ "versionId=7#top"
                (conj eq_refl (or_introl eq_refl)))))).
  - exact (from_url_drops_query_and_fragment "S3" "fastdl" "/gmod/maps" ""
             (or_intror eq_refl) eq_refl (or_intror eq_refl) eq_refl (or_introl eq_refl)).
Defined.

Lemma from_url_without_authority_witness :
  str_forallb key_char "gmod/maps" = true /\ starts_with "//" "gmod/maps" = false /\
  from_url "s3:gmod/maps" = Ok (Some {| bucket := ""; key := "gmod/maps" |}).
Proof.
  split; [reflexivity|]. split; [reflexivity|].
  exact (from_url_without_authority "gmod/maps" eq_refl eq_refl).
Defined.
